(** * PerfEventViktor.hpp: counter registry, multiplexing correction, report

    A shallow embedding of [struct PerfEvent] and [struct PerfEventBlock]
    (the [__linux__] branch of the header).

    - [uint64_t] is [Z] with the wrap-around of the subtraction written out.
    - [double] is IEEE-754 binary64, round to nearest even, through the
      specification of floating-point arithmetic of the standard library
      ([SpecFloat], precision 53, exponent bound 1024).
    - The kernel, the clock and the two standard streams are the program's
      environment: every call is appended to a chronological trace, and
      what the kernel answers is a function of the trace so far.
    - [std::ostream] arguments are the strings written so far. *)

From Stdlib Require Import ZArith Lia List String Ascii Bool.
From Stdlib Require Import Floats.SpecFloat.
From Stdlib Require Import OrderedTypeEx.
From stdpp Require Import base list.

Local Open Scope string_scope.
Local Open Scope list_scope.
Local Open Scope Z_scope.

(* ================================================================= *)
(** ** Numbers *)

(** [uint64_t]: the difference of two unsigned 64-bit values. *)
Definition u64_sub (a b : Z) : Z := (a - b) mod 2 ^ 64.

(** The conversion of the [long] a system call returns to [int]: the low
    32 bits, read as a signed number. *)
Definition int_of_long (z : Z) : Z := (z + 2 ^ 31) mod 2 ^ 32 - 2 ^ 31.

Module Double.

Definition prec : Z := 53.
Definition emax : Z := 1024.

Definition t : Type := spec_float.

(** Conversion of an integer to [double] (exact below [2^53], rounded to
    the nearest representable value above). *)
Definition of_Z (n : Z) : t := binary_normalize prec emax n 0 false.

Definition mul : t -> t -> t := SFmul prec emax.
Definition div : t -> t -> t := SFdiv prec emax.

Definition one : t := S754_finite false 4503599627370496 (-52).
Definition nan : t := S754_nan.
Definition infinity : t := S754_infinity false.

(** [is_Z x z]: the double [x] is finite and its value is the integer [z]. *)
Definition is_Z (x : t) (z : Z) : Prop :=
  match x with
  | S754_zero _ => z = 0
  | S754_finite s m e =>
      if 0 <=? e then z = cond_Zopp s (Zpos m) * 2 ^ e
      else cond_Zopp s (Zpos m) = z * 2 ^ (- e)
  | _ => False
  end.

(** The second half of [binary_round_aux]: rounding of the shifted
    mantissa and the final overflow test. *)
Definition round_finish (s : bool) (p : shr_record * Z) : t :=
  let '(mrs', e') := p in
  let '(mrs'', e'') :=
    shr_fexp prec emax
      (round_nearest_even (shr_m mrs') (loc_of_shr_record mrs')) e' loc_Exact in
  match shr_m mrs'' with
  | Z0 => S754_zero s
  | Zpos m => if e'' <=? emax - prec then S754_finite s m e'' else S754_infinity s
  | _ => S754_nan
  end.

End Double.

Abbreviation double := Double.t.

(* ================================================================= *)
(** ** Constants of <linux/perf_event.h> and <sys/ioctl.h> *)

Definition PERF_TYPE_HARDWARE : Z := 0.
Definition PERF_TYPE_SOFTWARE : Z := 1.
Definition PERF_TYPE_HW_CACHE : Z := 3.
Definition PERF_TYPE_RAW : Z := 4.

Definition PERF_COUNT_HW_CPU_CYCLES : Z := 0.
Definition PERF_COUNT_HW_INSTRUCTIONS : Z := 1.
Definition PERF_COUNT_HW_CACHE_MISSES : Z := 3.
Definition PERF_COUNT_HW_BRANCH_MISSES : Z := 5.

Definition PERF_COUNT_HW_CACHE_L1D : Z := 0.
Definition PERF_COUNT_HW_CACHE_OP_READ : Z := 0.
Definition PERF_COUNT_HW_CACHE_RESULT_MISS : Z := 1.

Definition PERF_COUNT_SW_TASK_CLOCK : Z := 1.

Definition PERF_FORMAT_TOTAL_TIME_ENABLED : Z := 1.
Definition PERF_FORMAT_TOTAL_TIME_RUNNING : Z := 2.
Definition PERF_FORMAT_ID : Z := 4.
Definition PERF_FORMAT_GROUP : Z := 8.

Inductive ioctl_request : Type :=
| PERF_EVENT_IOC_ENABLE
| PERF_EVENT_IOC_DISABLE
| PERF_EVENT_IOC_RESET.

(* ================================================================= *)
(** ** Data model *)

(** [struct perf_event_attr]: the fields the program writes; [memset]
    leaves every other field zero. *)
Record perf_event_attr : Type := {
  attr_type : Z;
  attr_size : Z;
  attr_config : Z;
  attr_disabled : bool;
  attr_inherit : bool;
  attr_inherit_stat : bool;
  attr_exclude_user : bool;
  attr_exclude_kernel : bool;
  attr_exclude_hv : bool;
  attr_read_format : Z
}.

(** [PerfEvent::event::read_format]. *)
Record read_format : Type := {
  value : Z;
  time_enabled : Z;
  time_running : Z;
  id : Z
}.

(** [PerfEvent::event]. *)
Record event : Type := {
  pe : perf_event_attr;
  fd : Z;
  prev : read_format;
  data : read_format
}.

(** [std::map<std::string,std::string>]: bindings kept in increasing key
    order, one per key. *)
Definition string_map : Type := list (string * string).

(** [struct PerfEvent].  The two time points are ticks of
    [std::chrono::steady_clock] (nanoseconds). *)
Record PerfEvent : Type := {
  events : list event;
  names : list string;
  startTime : Z;
  stopTime : Z;
  params : string_map;
  printHeader : bool
}.

(** [struct PerfEventBlock]: the registry it refers to is passed
    explicitly to its constructor and destructor. *)
Record PerfEventBlock : Type := {
  scale : Z
}.

(* ================================================================= *)
(** ** Environment: kernel, clock and standard streams *)

(** What [read] returned, and the 64-bit words it stored in the buffer. *)
Record read_result : Type := {
  read_ret : Z;
  read_words : list Z
}.

Inductive call : Type :=
| perf_event_open (attr : perf_event_attr) (ret : Z)
| ioctl (fd : Z) (req : ioctl_request)
| read (fd : Z) (count : Z) (res : read_result)
| close (fd : Z)
| steady_clock_now (t : Z)
| cerr (line : string)
| cout (line : string).

Definition trace : Type := list call.

(** The answers of the environment, given the calls made so far. *)
Record kernel : Type := {
  k_perf_event_open : trace -> perf_event_attr -> Z;
  k_read : trace -> Z -> Z -> read_result;
  k_now : trace -> Z
}.

(** State monad over the trace. *)
Definition M (A : Type) : Type := trace -> A * trace.

Definition ret {A} (a : A) : M A := fun tr => (a, tr).

Definition bind {A B} (m : M A) (k : A -> M B) : M B :=
  fun tr => let '(a, tr') := m tr in k a tr'.

Notation "x <- m ;; k" := (bind m (fun x => k))
  (at level 100, m at next level, right associativity).
Notation "m ;;; k" := (bind m (fun _ => k))
  (at level 100, right associativity).

Definition emit (c : call) : M unit := fun tr => (tt, tr ++ [c]).

Definition exec {A} (m : M A) (tr : trace) : trace := snd (m tr).
Definition eval {A} (m : M A) (tr : trace) : A := fst (m tr).

(* ================================================================= *)
(** ** PerfEvent::event *)

Definition zero_attr : perf_event_attr :=
  {| attr_type := 0; attr_size := 0; attr_config := 0;
     attr_disabled := false; attr_inherit := false; attr_inherit_stat := false;
     attr_exclude_user := false; attr_exclude_kernel := false;
     attr_exclude_hv := false; attr_read_format := 0 |}.

Definition zero_read_format : read_format :=
  {| value := 0; time_enabled := 0; time_running := 0; id := 0 |}.

(** [event()]: a value-initialised event, every member zero. *)
Definition event_init : event :=
  {| pe := zero_attr; fd := 0; prev := zero_read_format; data := zero_read_format |}.

Definition set_pe (e : event) (a : perf_event_attr) : event :=
  {| pe := a; fd := fd e; prev := prev e; data := data e |}.
Definition set_fd (e : event) (f : Z) : event :=
  {| pe := pe e; fd := f; prev := prev e; data := data e |}.
Definition set_prev (e : event) (s : read_format) : event :=
  {| pe := pe e; fd := fd e; prev := s; data := data e |}.
Definition set_data (e : event) (s : read_format) : event :=
  {| pe := pe e; fd := fd e; prev := prev e; data := s |}.

(** [double readCounter()]. *)
Definition readCounter (e : event) : double :=
  let multiplexingCorrection :=
    Double.div
      (Double.of_Z (u64_sub (time_enabled (data e)) (time_enabled (prev e))))
      (Double.of_Z (u64_sub (time_running (data e)) (time_running (prev e)))) in
  Double.mul (Double.of_Z (u64_sub (value (data e)) (value (prev e))))
             multiplexingCorrection.

(** The three differences [readCounter] takes, in [uint64_t]. *)
Definition rawDelta (e : event) : Z := u64_sub (value (data e)) (value (prev e)).
Definition enabledDelta (e : event) : Z :=
  u64_sub (time_enabled (data e)) (time_enabled (prev e)).
Definition runningDelta (e : event) : Z :=
  u64_sub (time_running (data e)) (time_running (prev e)).

(* ================================================================= *)
(** ** PerfEvent: registration *)

Definition set_events (r : PerfEvent) (evs : list event) : PerfEvent :=
  {| events := evs; names := names r; startTime := startTime r;
     stopTime := stopTime r; params := params r; printHeader := printHeader r |}.
Definition set_names (r : PerfEvent) (ns : list string) : PerfEvent :=
  {| events := events r; names := ns; startTime := startTime r;
     stopTime := stopTime r; params := params r; printHeader := printHeader r |}.
Definition set_startTime (r : PerfEvent) (t : Z) : PerfEvent :=
  {| events := events r; names := names r; startTime := t;
     stopTime := stopTime r; params := params r; printHeader := printHeader r |}.
Definition set_stopTime (r : PerfEvent) (t : Z) : PerfEvent :=
  {| events := events r; names := names r; startTime := startTime r;
     stopTime := t; params := params r; printHeader := printHeader r |}.
Definition set_params (r : PerfEvent) (p : string_map) : PerfEvent :=
  {| events := events r; names := names r; startTime := startTime r;
     stopTime := stopTime r; params := p; printHeader := printHeader r |}.
Definition set_printHeader (r : PerfEvent) (b : bool) : PerfEvent :=
  {| events := events r; names := names r; startTime := startTime r;
     stopTime := stopTime r; params := params r; printHeader := b |}.

(** [names[i]]; the index is always below [names.size()] in the program
    (the two vectors grow and shrink together). *)
Definition name_at (r : PerfEvent) (i : nat) : string :=
  default "" (names r !! i).

(** The members before the constructor body runs. *)
Definition PerfEvent_new : PerfEvent :=
  {| events := []; names := []; startTime := 0; stopTime := 0;
     params := []; printHeader := true |}.

Section Registration.

(** [sizeof(struct perf_event_attr)], fixed by the kernel headers. *)
Variable sizeof_perf_event_attr : Z.

(** The [memset] and the assignments to [pe] in [registerCounter];
    [pe.type] is a 32-bit member. *)
Definition configure_attr (type eventID : Z) (exclude_user : bool)
  : perf_event_attr :=
  {| attr_type := type mod 2 ^ 32;
     attr_size := sizeof_perf_event_attr;
     attr_config := eventID;
     attr_disabled := true;
     attr_inherit := true;
     attr_inherit_stat := false;
     attr_exclude_user := exclude_user;
     attr_exclude_kernel := false;
     attr_exclude_hv := false;
     attr_read_format :=
       Z.lor PERF_FORMAT_TOTAL_TIME_ENABLED PERF_FORMAT_TOTAL_TIME_RUNNING |}.

(** [void registerCounter(name, type, eventID, exclude_user = false)]:
    the new event is pushed, then configured through [events.back()]. *)
Definition registerCounter (r : PerfEvent) (name : string) (type eventID : Z)
           (exclude_user : bool) : PerfEvent :=
  let r := set_names r (names r ++ [name]) in
  let r := set_events r (events r ++ [event_init]) in
  match last (events r) with
  | Some ev =>
      set_events r
        (removelast (events r)
           ++ [set_pe ev (configure_attr type eventID exclude_user)])
  | None => r
  end.

(** The eight [registerCounter] calls of the constructor. *)
Definition register_default_counters (r : PerfEvent) : PerfEvent :=
  let r := registerCounter r "cycle" PERF_TYPE_HARDWARE PERF_COUNT_HW_CPU_CYCLES false in
  let r := registerCounter r "kcycle" PERF_TYPE_HARDWARE PERF_COUNT_HW_CPU_CYCLES true in
  let r := registerCounter r "scycle" PERF_TYPE_RAW 0x43FFAE false in
  let r := registerCounter r "instr" PERF_TYPE_HARDWARE PERF_COUNT_HW_INSTRUCTIONS false in
  let r := registerCounter r "L1-miss" PERF_TYPE_HW_CACHE
             (Z.lor (Z.lor PERF_COUNT_HW_CACHE_L1D
                           (Z.shiftl PERF_COUNT_HW_CACHE_OP_READ 8))
                    (Z.shiftl PERF_COUNT_HW_CACHE_RESULT_MISS 16)) false in
  let r := registerCounter r "LLC-miss" PERF_TYPE_HARDWARE PERF_COUNT_HW_CACHE_MISSES false in
  let r := registerCounter r "br-miss" PERF_TYPE_HARDWARE PERF_COUNT_HW_BRANCH_MISSES false in
  let r := registerCounter r "task" PERF_TYPE_SOFTWARE PERF_COUNT_SW_TASK_CLOCK false in
  r.

(** The arguments of one [registerCounter] call. *)
Record counter_spec : Type := {
  c_name : string;
  c_type : Z;
  c_eventID : Z;
  c_exclude_user : bool
}.

(** A sequence of [registerCounter] calls. *)
Definition register_all (cs : list counter_spec) (r : PerfEvent) : PerfEvent :=
  fold_left
    (fun r c => registerCounter r (c_name c) (c_type c) (c_eventID c)
                  (c_exclude_user c))
    cs r.

(** The event a registered counter starts as. *)
Definition event_of (c : counter_spec) : event :=
  set_pe event_init (configure_attr (c_type c) (c_eventID c) (c_exclude_user c)).

End Registration.

(** The built-in counter set, as the constructor registers it. *)
Definition default_counters : list counter_spec :=
  [ {| c_name := "cycle"; c_type := PERF_TYPE_HARDWARE;
       c_eventID := PERF_COUNT_HW_CPU_CYCLES; c_exclude_user := false |};
    {| c_name := "kcycle"; c_type := PERF_TYPE_HARDWARE;
       c_eventID := PERF_COUNT_HW_CPU_CYCLES; c_exclude_user := true |};
    {| c_name := "scycle"; c_type := PERF_TYPE_RAW;
       c_eventID := 0x43FFAE; c_exclude_user := false |};
    {| c_name := "instr"; c_type := PERF_TYPE_HARDWARE;
       c_eventID := PERF_COUNT_HW_INSTRUCTIONS; c_exclude_user := false |};
    {| c_name := "L1-miss"; c_type := PERF_TYPE_HW_CACHE;
       c_eventID :=
         Z.lor (Z.lor PERF_COUNT_HW_CACHE_L1D
                      (Z.shiftl PERF_COUNT_HW_CACHE_OP_READ 8))
               (Z.shiftl PERF_COUNT_HW_CACHE_RESULT_MISS 16);
       c_exclude_user := false |};
    {| c_name := "LLC-miss"; c_type := PERF_TYPE_HARDWARE;
       c_eventID := PERF_COUNT_HW_CACHE_MISSES; c_exclude_user := false |};
    {| c_name := "br-miss"; c_type := PERF_TYPE_HARDWARE;
       c_eventID := PERF_COUNT_HW_BRANCH_MISSES; c_exclude_user := false |};
    {| c_name := "task"; c_type := PERF_TYPE_SOFTWARE;
       c_eventID := PERF_COUNT_SW_TASK_CLOCK; c_exclude_user := false |} ].

(* ================================================================= *)
(** ** PerfEvent: lifecycle *)

(** [sizeof(uint64_t) * 3]. *)
Definition snapshot_size : Z := 8 * 3.

(** What a [read] into a [read_format] buffer leaves there: the words the
    kernel stored overwrite the leading members, [id] is beyond the three
    words asked for. *)
Definition store_words (buf : read_format) (ws : list Z) : read_format :=
  match ws with
  | [] => buf
  | [a] => {| value := a; time_enabled := time_enabled buf;
              time_running := time_running buf; id := id buf |}
  | [a; b] => {| value := a; time_enabled := b;
                 time_running := time_running buf; id := id buf |}
  | a :: b :: c :: _ => {| value := a; time_enabled := b;
                           time_running := c; id := id buf |}
  end.

Section Lifecycle.

Variable sizeof_perf_event_attr : Z.
Variable K : kernel.

(** [syscall(__NR_perf_event_open, &attr, 0, -1, -1, 0)]. *)
Definition sys_perf_event_open (attr : perf_event_attr) : M Z :=
  fun tr =>
    let r := k_perf_event_open K tr attr in (r, tr ++ [perf_event_open attr r]).

(** [read(fd, buf, count)]. *)
Definition sys_read (f : Z) (count : Z) : M read_result :=
  fun tr => let res := k_read K tr f count in (res, tr ++ [read f count res]).

(** [std::chrono::steady_clock::now()]. *)
Definition now : M Z :=
  fun tr => let t := k_now K tr in (t, tr ++ [steady_clock_now t]).

(** The loop of the constructor, [n] iterations left, at index [i];
    [events r !! i = None] is the test [i < events.size()] failing. *)
Fixpoint open_counters (n i : nat) (r : PerfEvent) : M PerfEvent :=
  match n with
  | O => ret r
  | S n' =>
      match events r !! i with
      | None => ret r
      | Some ev =>
          ret' <- sys_perf_event_open (pe ev) ;;
          let fd' := int_of_long ret' in
          let r1 := set_events r (<[i := set_fd ev fd']> (events r)) in
          if fd' <? 0 then
            emit (cerr ("Error opening counter " ++ name_at r1 i)%string) ;;;
            ret (set_names (set_events r1 []) [])
          else
            open_counters n' (S i) r1
      end
  end.

(** [PerfEvent()]. *)
Definition PerfEvent_ctor : M PerfEvent :=
  let r := register_default_counters sizeof_perf_event_attr PerfEvent_new in
  open_counters (length (events r)) 0 r.

(** The constructor with another counter set in place of the built-in
    one: the same registration calls and the same loop. *)
Definition PerfEvent_with (cs : list counter_spec) : M PerfEvent :=
  let r := register_all sizeof_perf_event_attr cs PerfEvent_new in
  open_counters (length (events r)) 0 r.

(** The loop of [startCounters]. *)
Fixpoint startCounters_loop (n i : nat) (r : PerfEvent) : M PerfEvent :=
  match n with
  | O => ret r
  | S n' =>
      match events r !! i with
      | None => ret r
      | Some ev =>
          emit (ioctl (fd ev) PERF_EVENT_IOC_RESET) ;;;
          emit (ioctl (fd ev) PERF_EVENT_IOC_ENABLE) ;;;
          res <- sys_read (fd ev) snapshot_size ;;
          let r1 :=
            set_events r
              (<[i := set_prev ev (store_words (prev ev) (read_words res))]>
                 (events r)) in
          (if read_ret res =? snapshot_size then ret tt
           else emit (cerr ("Error reading counter " ++ name_at r1 i)%string)) ;;;
          startCounters_loop n' (S i) r1
      end
  end.

(** [void startCounters()]. *)
Definition startCounters (r : PerfEvent) : M PerfEvent :=
  r1 <- startCounters_loop (length (events r)) 0 r ;;
  t <- now ;;
  ret (set_startTime r1 t).

(** [~PerfEvent()]: the range-for over [events]. *)
Fixpoint close_all (evs : list event) : M unit :=
  match evs with
  | [] => ret tt
  | ev :: rest => emit (close (fd ev)) ;;; close_all rest
  end.

Definition PerfEvent_dtor (r : PerfEvent) : M unit := close_all (events r).

(** The loop of [stopCounters]. *)
Fixpoint stopCounters_loop (n i : nat) (r : PerfEvent) : M PerfEvent :=
  match n with
  | O => ret r
  | S n' =>
      match events r !! i with
      | None => ret r
      | Some ev =>
          res <- sys_read (fd ev) snapshot_size ;;
          let r1 :=
            set_events r
              (<[i := set_data ev (store_words (data ev) (read_words res))]>
                 (events r)) in
          (if read_ret res =? snapshot_size then ret tt
           else emit (cerr ("Error reading counter " ++ name_at r1 i)%string)) ;;;
          emit (ioctl (fd ev) PERF_EVENT_IOC_DISABLE) ;;;
          stopCounters_loop n' (S i) r1
      end
  end.

(** [void stopCounters()]. *)
Definition stopCounters (r : PerfEvent) : M PerfEvent :=
  t <- now ;;
  stopCounters_loop (length (events r)) 0 (set_stopTime r t).

(** [cycles] measurement windows in a row. *)
Fixpoint measure (cycles : nat) (r : PerfEvent) : M PerfEvent :=
  match cycles with
  | O => ret r
  | S c => r1 <- startCounters r ;; r2 <- stopCounters r1 ;; measure c r2
  end.

(** The whole life of a registry: construction, some measurement
    windows, destruction. *)
Definition lifetime (cycles : nat) : M unit :=
  r <- PerfEvent_ctor ;;
  r1 <- measure cycles r ;;
  PerfEvent_dtor r1.

End Lifecycle.

(* ================================================================= *)
(** ** PerfEvent: values *)

(** The literal [1e9]. *)
Definition d_1e9 : double := Double.of_Z 1000000000.

(** The [int] literal [-1] returned as a [double]. *)
Definition minus_one : double := Double.of_Z (-1).

(** [double getDuration()]: the tick count converted to seconds. *)
Definition getDuration (r : PerfEvent) : double :=
  Double.div (Double.of_Z (stopTime r - startTime r)) d_1e9.

(** [size_t getDurationMicros()]: truncating division, then the
    conversion of the signed count to [size_t]. *)
Definition getDurationMicros (r : PerfEvent) : Z :=
  (Z.quot (stopTime r - startTime r) 1000) mod 2 ^ 64.

(** The loop of [getCounter]. *)
Fixpoint getCounter_loop (n i : nat) (r : PerfEvent) (name : string) : double :=
  match n with
  | O => minus_one
  | S n' =>
      match events r !! i with
      | None => minus_one
      | Some ev =>
          if String.eqb (name_at r i) name then readCounter ev
          else getCounter_loop n' (S i) r name
      end
  end.

(** [double getCounter(const std::string& name)]. *)
Definition getCounter (r : PerfEvent) (name : string) : double :=
  getCounter_loop (length (events r)) 0 r name.

Definition getIPC (r : PerfEvent) : double :=
  Double.div (getCounter r "instr") (getCounter r "cycle").

Definition getCPUs (r : PerfEvent) : double :=
  Double.div (getCounter r "task") (Double.mul (getDuration r) d_1e9).

Definition getGHz (r : PerfEvent) : double :=
  Double.div (getCounter r "cycle") (getCounter r "task").

(* ================================================================= *)
(** ** PerfEvent: report *)

Fixpoint spaces (n : nat) : string :=
  match n with
  | O => ""
  | S n' => String " "%char (spaces n')
  end.

(** [out << std::setw(width) << s] on a stream with the default fill and
    adjustment: padded on the left, never truncated. *)
Definition setw (width : nat) (s : string) : string :=
  (spaces (width - String.length s) ++ s)%string.


(** An [operator[]] assignment [m[k] = v] on the ordered map. *)
Fixpoint map_assign (k v : string) (m : string_map) : string_map :=
  match m with
  | [] => [(k, v)]
  | (k', v') :: m' =>
      match String.compare k k' with
      | Lt => (k, v) :: m
      | Eq => (k, v) :: m'
      | Gt => (k', v') :: map_assign k v m'
      end
  end.

(** Keys strictly increasing from one binding to the next: the order in
    which [std::map] is iterated. *)
Inductive keys_increasing : string_map -> Prop :=
| keys_nil : keys_increasing []
| keys_one k v : keys_increasing [(k, v)]
| keys_cons k v k' v' m :
    String.compare k k' = Lt ->
    keys_increasing ((k', v') :: m) ->
    keys_increasing ((k, v) :: (k', v') :: m).

(** The value the last assignment to key [k] gave it, in a sequence of
    assignments listed first to last. *)
Fixpoint last_setting (l : list (string * string)) (k : string) : option string :=
  match l with
  | [] => None
  | (k', v) :: l' =>
      match last_setting l' k with
      | Some x => Some x
      | None => if String.eqb k k' then Some v else None
      end
  end.

(** The first binding of key [k] met when the map is iterated. *)
Fixpoint binding (m : string_map) (k : string) : option string :=
  match m with
  | [] => None
  | (k', v) :: m' => if String.eqb k k' then Some v else binding m' k
  end.

(** [static void printCounter(headerOut, dataOut, std::string name,
    std::string counterValue, bool addComma = true)]; the two streams are
    the pair of strings written so far. *)
Definition printCounter (out : string * string) (name counterValue : string)
           (addComma : bool) : string * string :=
  let width := Nat.max (String.length name) (String.length counterValue) in
  let sep := ((if addComma then "," else "") ++ " ")%string in
  ((fst out ++ setw width name ++ sep)%string,
   (snd out ++ setw width counterValue ++ sep)%string).

(** The width one [printCounter] call adds to each stream. *)
Definition column_width (name counterValue : string) (addComma : bool) : nat :=
  (Nat.max (String.length name) (String.length counterValue)
   + (if addComma then 2 else 1))%nat.


Section Report.

(** [stream << std::fixed << std::setprecision(2) << v] for a [double]
    and for an unsigned integer, as the C++ library prints them. *)
Variable fmt_double : double -> string.
Variable fmt_unsigned : Z -> string.

(** [template <typename T> printCounter] at [T = double]. *)
Definition printCounter_double (out : string * string) (name : string)
           (counterValue : double) (addComma : bool) : string * string :=
  printCounter out name (fmt_double counterValue) addComma.

(** [template <typename T> printCounter] at [T = uint64_t], [size_t]. *)
Definition printCounter_unsigned (out : string * string) (name : string)
           (counterValue : Z) (addComma : bool) : string * string :=
  printCounter out name (fmt_unsigned counterValue) addComma.

(** The loop of [printReport] over all counters. *)
Fixpoint printReport_loop (n i : nat) (r : PerfEvent) (out : string * string)
         (normalizationConstant : Z) : string * string :=
  match n with
  | O => out
  | S n' =>
      match events r !! i with
      | None => out
      | Some ev =>
          printReport_loop n' (S i) r
            (printCounter_double out (name_at r i)
               (Double.div (readCounter ev) (Double.of_Z normalizationConstant))
               true)
            normalizationConstant
      end
  end.

(** [void printReport(std::ostream& headerOut, std::ostream& dataOut,
    uint64_t normalizationConstant)]. *)
Definition printReport_streams (r : PerfEvent) (out : string * string)
           (normalizationConstant : Z) : string * string :=
  if (length (events r) =? 0)%nat then out
  else
    let out := printReport_loop (length (events r)) 0 r out normalizationConstant in
    let out := printCounter_unsigned out "scale" normalizationConstant true in
    let out := printCounter_double out "IPC" (getIPC r) true in
    let out := printCounter_double out "CPU" (getCPUs r) true in
    printCounter_double out "GHz" (getGHz r) false.


(** [void setParam(const std::string& name, const std::string& value)]
    (and the [const char*] overload). *)
Definition setParam (r : PerfEvent) (name value : string) : PerfEvent :=
  set_params r (map_assign name value (params r)).

(** [void printParams(std::ostream& header, std::ostream& data)]. *)
Fixpoint printParams_loop (ps : string_map) (out : string * string)
  : string * string :=
  match ps with
  | [] => out
  | p :: ps' => printParams_loop ps' (printCounter out (fst p) (snd p) true)
  end.

Definition printParams (r : PerfEvent) (out : string * string)
  : string * string :=
  printParams_loop (params r) out.

Variable K : kernel.

(** [PerfEventBlock(PerfEvent& e, uint64_t scale = 1)]. *)
Definition PerfEventBlock_ctor (e : PerfEvent) (scale' : Z)
  : M (PerfEvent * PerfEventBlock) :=
  e1 <- startCounters K e ;;
  ret (e1, {| scale := scale' |}).

(** The [header] and [data] streams [~PerfEventBlock()] fills after it
    has stopped the counters. *)
Definition block_lines (e1 : PerfEvent) (b : PerfEventBlock) : string * string :=
  let out := printParams e1 ("", "") in
  let out := printCounter_double out "time" (getDuration e1) true in
  let out := printCounter_unsigned out "time_us" (getDurationMicros e1) true in
  printReport_streams e1 out (scale b).

(** [~PerfEventBlock()]. *)
Definition PerfEventBlock_dtor (e : PerfEvent) (b : PerfEventBlock)
  : M PerfEvent :=
  e1 <- stopCounters K e ;;
  let out := block_lines e1 b in
  e2 <- (if printHeader e1 then
           emit (cout (fst out)) ;;; ret (set_printHeader e1 false)
         else ret e1) ;;
  emit (cout (snd out)) ;;;
  ret e2.

End Report.

(* ================================================================= *)
(** ** Shapes of traces *)

(** [opened evs evs' tr]: [tr] is one successful [perf_event_open] per
    event of [evs], in order, each with the event's attributes, and [evs']
    are the same events holding the descriptors returned (as [int]). *)
Inductive opened : list event -> list event -> trace -> Prop :=
| opened_nil : opened [] [] []
| opened_cons ev evs evs' ret' tr :
    0 <= int_of_long ret' ->
    opened evs evs' tr ->
    opened (ev :: evs) (set_fd ev (int_of_long ret') :: evs')
      (perf_event_open (pe ev) ret' :: tr).

(** The diagnostic line that follows a read of [res] for counter [name]. *)
Definition read_diagnostic (name : string) (res : read_result) : trace :=
  if read_ret res =? snapshot_size then []
  else [cerr ("Error reading counter " ++ name)%string].

(** [started evs ns evs' tr]: for each event in order, [tr] holds reset,
    enable, read of the snapshot (and the diagnostic of a short read), and
    [evs'] are the events with what was read stored in [prev]. *)
Inductive started : list event -> list string -> list event -> trace -> Prop :=
| started_nil : started [] [] [] []
| started_cons ev evs n ns evs' res tr :
    started evs ns evs' tr ->
    started (ev :: evs) (n :: ns)
      (set_prev ev (store_words (prev ev) (read_words res)) :: evs')
      ([ioctl (fd ev) PERF_EVENT_IOC_RESET;
        ioctl (fd ev) PERF_EVENT_IOC_ENABLE;
        read (fd ev) snapshot_size res]
         ++ read_diagnostic n res ++ tr).

(** [stopped evs ns evs' tr]: for each event in order, [tr] holds the read
    of the snapshot (and the diagnostic of a short read), then disable, and
    [evs'] are the events with what was read stored in [data]. *)
Inductive stopped : list event -> list string -> list event -> trace -> Prop :=
| stopped_nil : stopped [] [] [] []
| stopped_cons ev evs n ns evs' res tr :
    stopped evs ns evs' tr ->
    stopped (ev :: evs) (n :: ns)
      (set_data ev (store_words (data ev) (read_words res)) :: evs')
      ([read (fd ev) snapshot_size res]
         ++ read_diagnostic n res
         ++ [ioctl (fd ev) PERF_EVENT_IOC_DISABLE] ++ tr).

(** [first_match r name ev]: [ev] is the event of the first counter of
    [r], in registration order, whose name is [name]. *)
Definition first_match (r : PerfEvent) (name : string) (ev : event) : Prop :=
  exists i : nat,
    names r !! i = Some name
    /\ (forall j : nat, (j < i)%nat -> names r !! j <> Some name)
    /\ events r !! i = Some ev.

(** [zero_baseline_count ev n]: a zero baseline, a final raw value [n],
    and equal enabled and running differences. *)
Definition zero_baseline_count (ev : event) (n : Z) : Prop :=
  prev ev = zero_read_format
  /\ value (data ev) = n
  /\ enabledDelta ev = runningDelta ev.

(** [plain_count ev n]: the same, the equal differences being non-zero. *)
Definition plain_count (ev : event) (n : Z) : Prop :=
  zero_baseline_count ev n /\ 0 < runningDelta ev.

(* ================================================================= *)
(** ** Observations on traces and sample environments *)

Definition is_open (c : call) : bool :=
  match c with perf_event_open _ _ => true | _ => false end.

(** An open succeeded, or failed, as the constructor sees it: by the sign
    of the descriptor it stores. *)
Definition is_successful_open (c : call) : bool :=
  match c with perf_event_open _ r => 0 <=? int_of_long r | _ => false end.

Definition is_failed_open (c : call) : bool :=
  match c with perf_event_open _ r => int_of_long r <? 0 | _ => false end.

Definition is_close (c : call) : bool :=
  match c with close _ => true | _ => false end.

(** The calls that reach the kernel (as opposed to the clock and the
    standard streams). *)
Definition is_syscall (c : call) : bool :=
  match c with
  | perf_event_open _ _ | ioctl _ _ | read _ _ _ | close _ => true
  | _ => false
  end.

Definition count (p : call -> bool) (tr : trace) : nat :=
  length (List.filter p tr).

Definition is_cerr (c : call) : bool :=
  match c with cerr _ => true | _ => false end.

Definition is_cout (c : call) : bool :=
  match c with cout _ => true | _ => false end.

(** A [read] that returned another size than the one asked for. *)
Definition is_short_read (c : call) : bool :=
  match c with read _ n res => negb (read_ret res =? n) | _ => false end.

(** The descriptors returned by successful opens, in call order. *)
Fixpoint fds_opened (tr : trace) : list Z :=
  match tr with
  | [] => []
  | perf_event_open _ r :: tr' =>
      if 0 <=? int_of_long r then int_of_long r :: fds_opened tr'
      else fds_opened tr'
  | _ :: tr' => fds_opened tr'
  end.

(** The descriptors passed to [close], in call order. *)
Fixpoint fds_closed (tr : trace) : list Z :=
  match tr with
  | [] => []
  | close f :: tr' => f :: fds_closed tr'
  | _ :: tr' => fds_closed tr'
  end.

(** The attributes passed to [perf_event_open], in call order. *)
Fixpoint opened_attrs (tr : trace) : list perf_event_attr :=
  match tr with
  | [] => []
  | perf_event_open a _ :: tr' => a :: opened_attrs tr'
  | _ :: tr' => opened_attrs tr'
  end.

(** A kernel for examples: the [k]-th open (from 0) returns descriptor
    [3 + k], except that open number [fail_at] is refused; a read returns
    [read_size] bytes and, when that is a full snapshot, the words
    [1000 * fd + t, t, t] where [t] is the number of calls so far; the
    clock shows [1000] ticks per call made. *)
Definition sample_kernel (fail_at : option nat) (read_size : Z) : kernel :=
  {| k_perf_event_open := fun tr _ =>
       if decide (fail_at = Some (count is_open tr)) then -1
       else 3 + Z.of_nat (count is_open tr);
     k_read := fun tr f _ =>
       let t := Z.of_nat (length tr) in
       {| read_ret := read_size;
          read_words := if read_size =? 24 then [1000 * f + t; t; t] else [] |};
     k_now := fun tr => 1000 * Z.of_nat (length tr) |}.

(** A kernel whose answers need not fit an [int]: the [k]-th open (from 0)
    returns [base + k]; reads and the clock as in [sample_kernel]. *)
Definition wide_kernel (base : Z) : kernel :=
  {| k_perf_event_open := fun tr _ => base + Z.of_nat (count is_open tr);
     k_read := k_read (sample_kernel None 24);
     k_now := k_now (sample_kernel None 24) |}.

(** An event whose snapshots are given. *)
Definition sample_event (p d : Z * Z * Z) : event :=
  let mk (s : Z * Z * Z) :=
    {| value := fst (fst s); time_enabled := snd (fst s);
       time_running := snd s; id := 0 |} in
  {| pe := zero_attr; fd := 3; prev := mk p; data := mk d |}.

(** A registry with the given names and events. *)
Definition sample_registry (ns : list string) (evs : list event) : PerfEvent :=
  set_names (set_events PerfEvent_new evs) ns.

(* ================================================================= *)
(** * Facts about binary64 arithmetic *)

Module DoubleFacts.
Import Double.

Lemma digits2_log2 p : Zpos (digits2_pos p) = Z.succ (Z.log2 (Zpos p)).
Proof.
  induction p as [p IH|p IH|]; simpl digits2_pos; try reflexivity.
  - rewrite Pos2Z.inj_succ, IH. destruct p; simpl; try reflexivity; try lia;
      rewrite ?Pos2Z.inj_succ; simpl in IH; lia.
  - rewrite Pos2Z.inj_succ, IH. destruct p; simpl; try reflexivity; try lia;
      rewrite ?Pos2Z.inj_succ; simpl in IH; lia.
Qed.

Lemma digits2_bounds p :
  2 ^ (Zpos (digits2_pos p) - 1) <= Zpos p < 2 ^ Zpos (digits2_pos p).
Proof.
  rewrite digits2_log2.
  replace (Z.succ (Z.log2 (Z.pos p)) - 1) with (Z.log2 (Z.pos p)) by lia.
  apply Z.log2_spec. lia.
Qed.

Lemma digits2_unique p d :
  2 ^ (d - 1) <= Zpos p < 2 ^ d -> Zpos (digits2_pos p) = d.
Proof.
  intros H. rewrite digits2_log2.
  assert (0 <= d - 1).
  { destruct (Z.leb_spec 0 (d - 1)); [easy|].
    destruct (Z.eq_dec d 0) as [->|]; [simpl in H; lia|].
    rewrite (Z.pow_neg_r 2 d) in H by lia. lia. }
  rewrite (Z.log2_unique (Zpos p) (d - 1));
    lia || (replace (Z.succ (d - 1)) with d by lia; lia).
Qed.

(** Any finite non-zero double divided by itself is exactly [1.0]. *)
Lemma div_self s m e : div (S754_finite s m e) (S754_finite s m e) = one.
Proof.
  unfold div, SFdiv, SFdiv_core_binary.
  replace (Zdigits2 (Z.pos m) + e - (Zdigits2 (Z.pos m) + e)) with 0 by lia.
  replace (e - e) with 0 by lia.
  change (Z.min (fexp prec emax 0) 0) with (-53).
  change (0 - -53) with 53.
  cbv iota beta.
  rewrite Z.shiftl_mul_pow2 by lia.
  assert (H : Z.div_eucl (Z.pos m * 2 ^ 53) (Z.pos m) = (2 ^ 53, 0)).
  { assert (Hm : (Z.pos m * 2 ^ 53) mod (Z.pos m) = 0)
      by (rewrite Z.mul_comm; apply Z_mod_mult).
    assert (Hd : (Z.pos m * 2 ^ 53) / (Z.pos m) = 2 ^ 53)
      by (rewrite Z.mul_comm; apply Z_div_mult; lia).
    unfold Z.modulo, Z.div in Hm, Hd.
    destruct (Z.div_eucl (Z.pos m * 2 ^ 53) (Z.pos m)) as [q r].
    simpl in Hm, Hd. subst. reflexivity. }
  rewrite H.
  assert (Hloc : new_location (Z.pos m) 0 = loc_Exact).
  { unfold new_location, new_location_even, new_location_odd.
    destruct (Z.even _); reflexivity. }
  rewrite Hloc. destruct s; reflexivity.
Qed.

Lemma binary_round_aux_finish s mx ex lx :
  binary_round_aux prec emax s mx ex lx
  = round_finish s (shr_fexp prec emax mx ex lx).
Proof. unfold binary_round_aux, round_finish. reflexivity. Qed.

Lemma fexp_eq e : -1021 <= e -> fexp prec emax e = e - 53.
Proof. unfold fexp, emin, prec, emax. lia. Qed.

Lemma shr_fexp_id m e :
  Zpos (digits2_pos m) = 53 -> -1074 <= e ->
  shr_fexp prec emax (Zpos m) e loc_Exact
  = (Build_shr_record (Zpos m) false false, e).
Proof.
  intros Hd He. unfold shr_fexp. simpl Zdigits2. rewrite Hd, fexp_eq by lia.
  replace (53 + e - 53 - e) with 0 by lia. reflexivity.
Qed.

Lemma finish_exact s m e :
  Zpos (digits2_pos m) = 53 -> -1074 <= e <= 971 ->
  round_finish s (Build_shr_record (Zpos m) false false, e) = S754_finite s m e.
Proof.
  intros Hd He. unfold round_finish. simpl shr_m. simpl loc_of_shr_record.
  simpl round_nearest_even. rewrite shr_fexp_id by lia. simpl shr_m.
  change (emax - prec) with 971.
  rewrite (proj2 (Z.leb_le e 971)) by lia. reflexivity.
Qed.

Lemma finish_normal s m r st e :
  2 ^ 52 <= m < 2 ^ 53 -> -1074 <= e <= 970 ->
  exists m' e', round_finish s (Build_shr_record m r st, e) = S754_finite s m' e'
    /\ Zpos (digits2_pos m') = 53 /\ e <= e' <= e + 1.
Proof.
  intros Hm He. unfold round_finish. simpl shr_m.
  set (m2 := round_nearest_even m _).
  assert (Hm2 : m <= m2 <= m + 1).
  { unfold m2. destruct r, st; simpl; try destruct (Z.even m); lia. }
  clearbody m2.
  destruct (Z.eq_dec m2 (2 ^ 53)) as [->|Hne].
  - exists (4503599627370496%positive), (e + 1).
    unfold shr_fexp. change (Zdigits2 (2 ^ 53)) with 54. rewrite fexp_eq by lia.
    replace (54 + e - 53 - e) with 1 by lia.
    change (shr (shr_record_of_loc (2 ^ 53) loc_Exact) e 1)
      with (Build_shr_record (Zpos 4503599627370496) false false, e + 1).
    cbv beta iota. unfold shr_m. change (emax - prec) with 971.
    rewrite (proj2 (Z.leb_le (e + 1) 971)) by lia.
    split; [reflexivity | split; [reflexivity | lia]].
  - destruct m2 as [|q|q]; try lia.
    assert (Hq : Zpos (digits2_pos q) = 53) by (apply digits2_unique; simpl Z.sub; lia).
    exists q, e. rewrite shr_fexp_id by lia. simpl shr_m.
    change (emax - prec) with 971.
    rewrite (proj2 (Z.leb_le e 971)) by lia.
    split; [reflexivity | split; [assumption | lia]].
Qed.

Lemma shr_1_m mrs : 0 <= shr_m mrs -> shr_m (shr_1 mrs) = shr_m mrs / 2.
Proof.
  destruct mrs as [m r s]. simpl. intros Hm.
  destruct m as [|[p|p|]|p]; simpl; try reflexivity; try lia.
  - rewrite Pos2Z.inj_xI. apply (Z.div_unique _ _ _ 1); lia.
  - rewrite Pos2Z.inj_xO. apply (Z.div_unique _ _ _ 0); lia.
Qed.

Lemma iter_shr_1_m p : forall mrs,
  0 <= shr_m mrs -> shr_m (SpecFloat.iter_pos shr_1 p mrs) = shr_m mrs / 2 ^ Zpos p.
Proof.
  induction p as [p IH|p IH|]; intros mrs Hm; simpl SpecFloat.iter_pos.
  - assert (H1 : 0 <= shr_m (shr_1 mrs))
      by (rewrite shr_1_m by lia; apply Z.div_pos; lia).
    assert (H2 : 0 <= shr_m (SpecFloat.iter_pos shr_1 p (shr_1 mrs)))
      by (rewrite IH by lia; apply Z.div_pos; lia).
    rewrite IH, IH, shr_1_m by lia.
    rewrite !Z.div_div by lia. f_equal.
    rewrite Pos2Z.inj_xI.
    replace (2 * Z.pos p + 1) with (1 + Z.pos p + Z.pos p) by lia.
    rewrite !Z.pow_add_r, Z.pow_1_r by lia. ring.
  - assert (H2 : 0 <= shr_m (SpecFloat.iter_pos shr_1 p mrs))
      by (rewrite IH by lia; apply Z.div_pos; lia).
    rewrite IH, IH by lia. rewrite Z.div_div by lia. f_equal.
    rewrite Pos2Z.inj_xO, <- Z.pow_add_r by lia. f_equal. lia.
  - rewrite shr_1_m by lia. reflexivity.
Qed.

Lemma iter_xO_val p k : Zpos (Pos.iter xO p k) = Zpos p * 2 ^ Zpos k.
Proof.
  induction k as [|k IH] using Pos.peano_ind.
  - simpl. lia.
  - rewrite Pos.iter_succ, Pos2Z.inj_xO, IH, Pos2Z.inj_succ, Z.pow_succ_r by lia.
    ring.
Qed.

Lemma shr_52 m :
  SpecFloat.iter_pos shr_1 52 (Build_shr_record (Zpos (4503599627370496 * m)) false false)
  = Build_shr_record (Zpos m) false false.
Proof. reflexivity. Qed.

(** Multiplying a normal double by [1.0] leaves it unchanged. *)
Lemma mul_one s m e :
  Zpos (digits2_pos m) = 53 -> -1074 <= e <= 971 ->
  mul (S754_finite s m e) one = S754_finite s m e.
Proof.
  intros Hd He. unfold mul, one, SFmul.
  rewrite binary_round_aux_finish, Bool.xorb_false_r.
  rewrite Pos.mul_comm.
  assert (Hd' : Zdigits2 (Z.pos (4503599627370496 * m)) = 105).
  { unfold Zdigits2. apply digits2_unique.
    pose proof (digits2_bounds m) as Hb. rewrite Hd in Hb.
    rewrite Pos2Z.inj_mul. change (105 - 1) with (52 + 52).
    change (53 - 1) with 52 in Hb.
    change 105 with (52 + 53). rewrite !Z.pow_add_r by lia.
    change (Z.pos 4503599627370496) with (2 ^ 52). nia. }
  unfold shr_fexp. rewrite Hd', fexp_eq by lia.
  replace (105 + (e + -52) - 53 - (e + -52)) with 52 by lia.
  unfold shr_record_of_loc, shr. rewrite shr_52.
  replace (e + -52 + 52) with e by lia.
  apply finish_exact; [exact Hd | lia].
Qed.

(** Integers of at most 53 bits convert exactly. *)
Lemma of_Z_small p :
  Zpos (digits2_pos p) <= 53 ->
  exists m e, of_Z (Zpos p) = S754_finite false m e
    /\ Zpos (digits2_pos m) = 53 /\ -52 <= e <= 0 /\ Zpos m = Zpos p * 2 ^ (- e).
Proof.
  intros Hd. pose proof (digits2_bounds p) as Hb.
  assert (Hd1 : 1 <= Zpos (digits2_pos p)) by lia.
  unfold of_Z, binary_normalize, binary_round, shl_align.
  rewrite fexp_eq by lia.
  destruct (Z.pos (digits2_pos p) + 0 - 53 - 0) as [|k|k] eqn:Hk; try lia.
  - assert (Hp : Zpos (digits2_pos p) = 53) by (clear Hb; lia).
    exists p, 0. rewrite binary_round_aux_finish, shr_fexp_id by (assumption || lia).
    rewrite finish_exact by (assumption || lia).
    split; [reflexivity|]. split; [assumption|]. split; [lia|].
    change (- 0) with 0. rewrite Z.pow_0_r. lia.
  - assert (Hm : Zpos (digits2_pos (Pos.iter xO p k)) = 53).
    { apply digits2_unique. rewrite iter_xO_val.
      assert (E1 : 2 ^ (53 - 1) = 2 ^ (Zpos (digits2_pos p) - 1) * 2 ^ Zpos k)
        by (rewrite <- Z.pow_add_r by lia; f_equal; lia).
      assert (E2 : 2 ^ 53 = 2 ^ Zpos (digits2_pos p) * 2 ^ Zpos k)
        by (rewrite <- Z.pow_add_r by lia; f_equal; lia).
      rewrite E1, E2.
      assert (0 < 2 ^ Zpos k) by (apply Z.pow_pos_nonneg; lia). nia. }
    exists (Pos.iter xO p k), (Z.pos (digits2_pos p) + 0 - 53).
    rewrite binary_round_aux_finish, shr_fexp_id by lia.
    rewrite finish_exact by lia.
    split; [reflexivity|]. split; [exact Hm|]. split; [lia|].
    rewrite iter_xO_val. f_equal. f_equal. lia.
Qed.

Lemma of_Z_large p :
  53 < Zpos (digits2_pos p) <= 64 ->
  exists m e, of_Z (Zpos p) = S754_finite false m e
    /\ Zpos (digits2_pos m) = 53 /\ 1 <= e <= 12.
Proof.
  intros Hd. pose proof (digits2_bounds p) as Hb.
  unfold of_Z, binary_normalize, binary_round, shl_align.
  rewrite fexp_eq by lia.
  destruct (Z.pos (digits2_pos p) + 0 - 53 - 0) as [|k|k] eqn:Hk; try lia.
  rewrite binary_round_aux_finish. unfold shr_fexp. simpl Zdigits2.
  rewrite fexp_eq by lia. rewrite Hk. unfold shr.
  set (mrs := SpecFloat.iter_pos shr_1 k _).
  assert (Hm : shr_m mrs = Zpos p / 2 ^ Zpos k)
    by (unfold mrs; rewrite iter_shr_1_m; simpl; [reflexivity | lia]).
  destruct mrs as [m1 r1 s1]. simpl in Hm.
  assert (Hr : 2 ^ 52 <= m1 < 2 ^ 53).
  { subst m1.
    assert (Hp : 0 < 2 ^ Zpos k) by (apply Z.pow_pos_nonneg; lia).
    replace (Zpos (digits2_pos p) - 1) with (52 + Zpos k) in Hb by lia.
    replace (Zpos (digits2_pos p)) with (53 + Zpos k) in Hb by lia.
    rewrite !Z.pow_add_r in Hb by lia.
    split.
    - apply Z.div_le_lower_bound; lia.
    - apply Z.div_lt_upper_bound; lia. }
  destruct (finish_normal false m1 r1 s1 (0 + Zpos k) Hr ltac:(lia))
    as (m' & e' & E & D & B).
  exists m', e'. split; [exact E|]. split; [exact D|]. lia.
Qed.

(** Every non-zero [uint64_t] converts to a positive normal double. *)
Lemma of_Z_normal n :
  0 < n < 2 ^ 64 ->
  exists m e, of_Z n = S754_finite false m e
    /\ Zpos (digits2_pos m) = 53 /\ -52 <= e <= 12.
Proof.
  intros Hn. destruct n as [|p|p]; try lia.
  assert (Hd : Zpos (digits2_pos p) <= 64).
  { pose proof (digits2_bounds p) as Hb.
    destruct (Z.leb_spec (Zpos (digits2_pos p)) 64) as [|Hgt]; [assumption|].
    assert (2 ^ 64 <= 2 ^ (Zpos (digits2_pos p) - 1))
      by (apply Z.pow_le_mono_r; lia).
    lia. }
  destruct (Z.leb_spec (Zpos (digits2_pos p)) 53) as [Hs|Hl].
  - destruct (of_Z_small p Hs) as (m & e & E & D & B & _).
    exists m, e. repeat split; try assumption; lia.
  - destruct (of_Z_large p (conj Hl Hd)) as (m & e & E & D & B).
    exists m, e. repeat split; try assumption; lia.
Qed.

(** The conversion is exact up to [2^53]. *)
Lemma of_Z_exact n : 0 <= n <= 2 ^ 53 -> is_Z (of_Z n) n.
Proof.
  intros Hn.
  destruct (Z.eq_dec n 0) as [->|Hn0]; [reflexivity|].
  destruct (Z.eq_dec n (2 ^ 53)) as [->|Hn1]; [vm_compute; reflexivity|].
  destruct n as [|p|p]; try lia.
  assert (Hd : Zpos (digits2_pos p) <= 53).
  { pose proof (digits2_bounds p) as Hb.
    destruct (Z.leb_spec (Zpos (digits2_pos p)) 53) as [|Hgt]; [assumption|].
    assert (2 ^ 53 <= 2 ^ (Zpos (digits2_pos p) - 1))
      by (apply Z.pow_le_mono_r; lia).
    lia. }
  destruct (of_Z_small p Hd) as (m & e & E & _ & B & V).
  rewrite E. unfold is_Z, cond_Zopp.
  destruct (Z.leb_spec 0 e) as [He|He].
  - assert (e = 0) by lia. subst e. change (- 0) with 0 in V.
    rewrite Z.pow_0_r in *. lia.
  - exact V.
Qed.

(** Zero converts to [+0.0], and [+0.0 * 1.0 = +0.0]. *)
Lemma mul_of_Z_one n : 0 <= n < 2 ^ 64 -> mul (of_Z n) one = of_Z n.
Proof.
  intros Hn. destruct (Z.eq_dec n 0) as [->|Hn0]; [reflexivity|].
  destruct (of_Z_normal n ltac:(lia)) as (m & e & E & D & B).
  rewrite E. apply mul_one; [exact D | lia].
Qed.

Lemma div_of_Z_self n : 0 < n < 2 ^ 64 -> div (of_Z n) (of_Z n) = one.
Proof.
  intros Hn. destruct (of_Z_normal n Hn) as (m & e & E & _).
  rewrite E. apply div_self.
Qed.

End DoubleFacts.

(* ================================================================= *)
(** * The multiplexing correction *)

Lemma int_of_long_range z : - 2 ^ 31 <= int_of_long z < 2 ^ 31.
Proof.
  unfold int_of_long.
  pose proof (Z.mod_pos_bound (z + 2 ^ 31) (2 ^ 32) ltac:(lia)). lia.
Qed.

Lemma int_of_long_small z : - 2 ^ 31 <= z < 2 ^ 31 -> int_of_long z = z.
Proof. intros H. unfold int_of_long. rewrite Z.mod_small; lia. Qed.

Lemma int_of_long_wraps :
  int_of_long (2 ^ 31) = - 2 ^ 31 /\ int_of_long (3 - 2 ^ 32) = 3.
Proof. split; reflexivity. Qed.

Lemma u64_sub_range a b : 0 <= u64_sub a b < 2 ^ 64.
Proof. unfold u64_sub. apply Z.mod_pos_bound. lia. Qed.

Lemma u64_sub_exact a b : 0 <= b <= a -> a < 2 ^ 64 -> u64_sub a b = a - b.
Proof. intros H1 H2. unfold u64_sub. apply Z.mod_small. lia. Qed.

Lemma u64_sub_0_r a : 0 <= a < 2 ^ 64 -> u64_sub a 0 = a.
Proof. intros H. rewrite u64_sub_exact by lia. lia. Qed.

Lemma readCounter_unfold e :
  readCounter e
  = Double.mul (Double.of_Z (rawDelta e))
      (Double.div (Double.of_Z (enabledDelta e)) (Double.of_Z (runningDelta e))).
Proof. reflexivity. Qed.

(** Without multiplexing the correction factor is exactly [1.0] and the
    result is the raw difference converted to [double]. *)
Lemma readCounter_no_multiplexing e :
  runningDelta e <> 0 -> enabledDelta e = runningDelta e ->
  readCounter e = Double.of_Z (rawDelta e).
Proof.
  intros Hr He. rewrite readCounter_unfold, He.
  pose proof (u64_sub_range (time_running (data e)) (time_running (prev e))) as Hb.
  fold (runningDelta e) in Hb.
  rewrite DoubleFacts.div_of_Z_self by lia.
  apply DoubleFacts.mul_of_Z_one. apply u64_sub_range.
Qed.

(** C1 (amended).  With a non-zero running-time difference (all
    differences taken in [uint64_t]), [readCounter] returns the
    double-precision product of the raw difference and the quotient
    enabled/running; when the enabled and running differences are equal it
    returns the raw difference converted to [double], which is the raw
    difference exactly whenever that is at most [2^53]. *)
Theorem readCounter_corrected_value (e : event) :
  0 < runningDelta e ->
  readCounter e
  = Double.mul (Double.of_Z (rawDelta e))
      (Double.div (Double.of_Z (enabledDelta e)) (Double.of_Z (runningDelta e)))
  /\ (enabledDelta e = runningDelta e ->
      readCounter e = Double.of_Z (rawDelta e)
      /\ (rawDelta e <= 2 ^ 53 -> Double.is_Z (readCounter e) (rawDelta e))).
Proof.
  intros Hr. split; [apply readCounter_unfold|].
  intros He.
  assert (E : readCounter e = Double.of_Z (rawDelta e))
    by (apply readCounter_no_multiplexing; [lia | exact He]).
  split; [exact E|].
  intros Hsmall. rewrite E. apply DoubleFacts.of_Z_exact.
  pose proof (u64_sub_range (value (data e)) (value (prev e))) as Hb.
  fold (rawDelta e) in Hb. lia.
Qed.

Lemma readCounter_corrected_value_witness :
  let e := sample_event (0, 0, 0) (1000, 7, 7) in
  0 < runningDelta e
  /\ readCounter e
     = Double.mul (Double.of_Z (rawDelta e))
         (Double.div (Double.of_Z (enabledDelta e)) (Double.of_Z (runningDelta e)))
  /\ (enabledDelta e = runningDelta e ->
      readCounter e = Double.of_Z (rawDelta e)
      /\ (rawDelta e <= 2 ^ 53 -> Double.is_Z (readCounter e) (rawDelta e))).
Proof.
  split; [reflexivity|].
  apply (readCounter_corrected_value (sample_event (0, 0, 0) (1000, 7, 7))).
  reflexivity.
Defined.

(** C1 as stated fails: with a raw difference of [2^53 + 1] and equal
    enabled and running differences, the value returned is [2^53]. *)
Lemma readCounter_not_exact_above_2_53 :
  ~ (forall e : event,
        0 < runningDelta e -> enabledDelta e = runningDelta e ->
        Double.is_Z (readCounter e) (rawDelta e)).
Proof.
  intros H.
  specialize (H (sample_event (0, 0, 0) (2 ^ 53 + 1, 1, 1)) eq_refl eq_refl).
  vm_compute in H. discriminate H.
Qed.

(* ================================================================= *)
(** * Registration *)

Section RegistrationFacts.

Variable sz : Z.

Lemma registerCounter_eq r name type eventID ex :
  registerCounter sz r name type eventID ex
  = set_events (set_names r (names r ++ [name]))
      (events r ++ [set_pe event_init (configure_attr sz type eventID ex)]).
Proof.
  unfold registerCounter. cbn [events set_events set_names].
  rewrite last_snoc, removelast_last. reflexivity.
Qed.

Lemma register_all_eq cs : forall r,
  register_all sz cs r
  = set_events (set_names r (names r ++ map c_name cs))
      (events r ++ map (event_of sz) cs).
Proof.
  induction cs as [|c cs IH]; intros r.
  - cbn [register_all fold_left map]. rewrite !app_nil_r. destruct r; reflexivity.
  - change (register_all sz (c :: cs) r)
      with (register_all sz cs
              (registerCounter sz r (c_name c) (c_type c) (c_eventID c)
                 (c_exclude_user c))).
    rewrite IH, registerCounter_eq. unfold set_events, set_names. cbn.
    rewrite <- !app_assoc. reflexivity.
Qed.

Lemma register_default_counters_eq :
  register_default_counters sz PerfEvent_new
  = set_events (set_names PerfEvent_new (map c_name default_counters))
      (map (event_of sz) default_counters).
Proof. reflexivity. Qed.

End RegistrationFacts.

(* ================================================================= *)
(** * Lifecycle *)

Lemma set_events_set_events r a b : set_events (set_events r a) b = set_events r b.
Proof. reflexivity. Qed.

Lemma name_at_set_events r evs i : name_at (set_events r evs) i = name_at r i.
Proof. reflexivity. Qed.

Lemma snoc_length {A} (l : list A) (x : A) : length (l ++ [x]) = S (length l).
Proof. rewrite length_app. simpl. lia. Qed.

Lemma name_at_middle r (npre nrest : list string) n :
  names r = npre ++ n :: nrest -> name_at r (length npre) = n.
Proof.
  intros H. unfold name_at. rewrite H, list_lookup_middle by reflexivity.
  reflexivity.
Qed.

Section LifecycleFacts.

Variable K : kernel.

(** The constructor's loop either opens every remaining counter, or stops
    at the first refusal, reports it and empties both vectors. *)
Lemma open_counters_spec : forall n pre rest r tr0,
  events r = pre ++ rest -> length rest = n ->
  (exists rest' tr,
      opened rest rest' tr
      /\ open_counters K n (length pre) r tr0
         = (set_events r (pre ++ rest'), tr0 ++ tr))
  \/ (exists done done' ev todo ret' tr,
         rest = done ++ ev :: todo
         /\ opened done done' tr
         /\ int_of_long ret' < 0
         /\ open_counters K n (length pre) r tr0
            = (set_names (set_events r []) [],
               tr0 ++ tr
                 ++ [perf_event_open (pe ev) ret';
                     cerr ("Error opening counter "
                             ++ name_at r (length pre + length done))%string])).
Proof.
  induction n as [|n IH]; intros pre rest r tr0 Hev Hlen.
  - destruct rest; [|discriminate]. left. exists [], []. split; [constructor|].
    cbn [open_counters]. unfold ret. rewrite !app_nil_r in *.
    rewrite <- Hev. destruct r; reflexivity.
  - destruct rest as [|ev rest]; [discriminate|].
    injection Hlen as Hlen.
    cbn [open_counters].
    rewrite Hev, list_lookup_middle by reflexivity.
    unfold bind, sys_perf_event_open, emit, ret. cbv beta iota zeta.
    set (ret' := k_perf_event_open K tr0 (pe ev)).
    set (fd' := int_of_long ret').
    replace (<[length pre:=set_fd ev fd']> (pre ++ ev :: rest))
      with (pre ++ set_fd ev fd' :: rest)
      by (rewrite <- (Nat.add_0_r (length pre)), insert_app_r; reflexivity).
    destruct (fd' <? 0) eqn:Hfd.
    + right. exists [], [], ev, rest, ret', [].
      split; [reflexivity|]. split; [constructor|]. split; [fold fd'; lia|].
      rewrite name_at_set_events, Nat.add_0_r.
      rewrite <- app_assoc. reflexivity.
    + assert (Hfd' : 0 <= int_of_long ret') by (fold fd'; lia).
      set (r1 := set_events r (pre ++ set_fd ev fd' :: rest)).
      destruct (IH (pre ++ [set_fd ev fd']) rest r1
                  (tr0 ++ [perf_event_open (pe ev) ret']))
        as [(rest' & tr & Ho & E)|(done & done' & ev1 & todo & ret1 & tr & Hr & Ho & Hneg & E)].
      * unfold r1. cbn [events set_events]. rewrite <- app_assoc. reflexivity.
      * exact Hlen.
      * left. exists (set_fd ev fd' :: rest'), (perf_event_open (pe ev) ret' :: tr).
        split; [constructor; assumption|].
        rewrite snoc_length in E. rewrite E. unfold r1.
        rewrite set_events_set_events, <- !app_assoc. reflexivity.
      * right. exists (ev :: done), (set_fd ev fd' :: done'), ev1, todo, ret1,
          (perf_event_open (pe ev) ret' :: tr).
        split; [rewrite Hr; reflexivity|].
        split; [constructor; assumption|]. split; [exact Hneg|].
        rewrite snoc_length in E. rewrite E. unfold r1.
        rewrite set_events_set_events, name_at_set_events, <- !app_assoc.
        cbn [length]. rewrite Nat.add_succ_r. reflexivity.
Qed.

Lemma startCounters_loop_spec : forall n pre npre rest nrest r tr0,
  events r = pre ++ rest -> names r = npre ++ nrest ->
  length npre = length pre -> length rest = n -> length nrest = n ->
  exists rest' tr,
    started rest nrest rest' tr
    /\ startCounters_loop K n (length pre) r tr0
       = (set_events r (pre ++ rest'), tr0 ++ tr).
Proof.
  induction n as [|n IH]; intros pre npre rest nrest r tr0 Hev Hnm Hpre Hlen Hnlen.
  - destruct rest; [|discriminate]. destruct nrest; [|discriminate].
    exists [], []. split; [constructor|].
    cbn [startCounters_loop]. unfold ret. rewrite !app_nil_r in *.
    rewrite <- Hev. destruct r; reflexivity.
  - destruct rest as [|ev rest]; [discriminate|].
    destruct nrest as [|nm nrest]; [discriminate|].
    injection Hlen as Hlen. injection Hnlen as Hnlen.
    cbn [startCounters_loop].
    rewrite Hev, list_lookup_middle by reflexivity.
    unfold bind, sys_read, emit, ret. cbv beta iota zeta.
    set (res := k_read K _ (fd ev) snapshot_size).
    replace (<[length pre:=set_prev ev (store_words (prev ev) (read_words res))]>
               (pre ++ ev :: rest))
      with (pre ++ set_prev ev (store_words (prev ev) (read_words res)) :: rest)
      by (rewrite <- (Nat.add_0_r (length pre)), insert_app_r; reflexivity).
    set (ev' := set_prev ev (store_words (prev ev) (read_words res))).
    set (r1 := set_events r (pre ++ ev' :: rest)).
    assert (Hname : name_at r1 (length pre) = nm)
      by (rewrite <- Hpre; apply (name_at_middle r1 npre nrest); exact Hnm).
    rewrite Hname.
    set (tr1 := ((tr0 ++ [ioctl (fd ev) PERF_EVENT_IOC_RESET])
                   ++ [ioctl (fd ev) PERF_EVENT_IOC_ENABLE])
                  ++ [read (fd ev) snapshot_size res]).
    destruct (IH (pre ++ [ev']) (npre ++ [nm]) rest nrest r1
                (tr1 ++ read_diagnostic nm res))
      as (rest' & tr & Hs & E).
    + unfold r1. cbn [events set_events]. rewrite <- app_assoc. reflexivity.
    + unfold r1. cbn [names set_events]. rewrite Hnm, <- app_assoc. reflexivity.
    + rewrite !snoc_length. lia.
    + exact Hlen.
    + exact Hnlen.
    + exists (ev' :: rest'). eexists. split; [exact (started_cons _ _ _ _ _ res _ Hs)|].
      rewrite snoc_length in E. unfold read_diagnostic in *.
      destruct (read_ret res =? snapshot_size); cbv beta iota zeta;
        fold tr1; rewrite ?app_nil_r in E; rewrite E; unfold r1, tr1;
        rewrite set_events_set_events, <- !app_assoc; reflexivity.
Qed.

Lemma stopCounters_loop_spec : forall n pre npre rest nrest r tr0,
  events r = pre ++ rest -> names r = npre ++ nrest ->
  length npre = length pre -> length rest = n -> length nrest = n ->
  exists rest' tr,
    stopped rest nrest rest' tr
    /\ stopCounters_loop K n (length pre) r tr0
       = (set_events r (pre ++ rest'), tr0 ++ tr).
Proof.
  induction n as [|n IH]; intros pre npre rest nrest r tr0 Hev Hnm Hpre Hlen Hnlen.
  - destruct rest; [|discriminate]. destruct nrest; [|discriminate].
    exists [], []. split; [constructor|].
    cbn [stopCounters_loop]. unfold ret. rewrite !app_nil_r in *.
    rewrite <- Hev. destruct r; reflexivity.
  - destruct rest as [|ev rest]; [discriminate|].
    destruct nrest as [|nm nrest]; [discriminate|].
    injection Hlen as Hlen. injection Hnlen as Hnlen.
    cbn [stopCounters_loop].
    rewrite Hev, list_lookup_middle by reflexivity.
    unfold bind, sys_read, emit, ret. cbv beta iota zeta.
    set (res := k_read K _ (fd ev) snapshot_size).
    replace (<[length pre:=set_data ev (store_words (data ev) (read_words res))]>
               (pre ++ ev :: rest))
      with (pre ++ set_data ev (store_words (data ev) (read_words res)) :: rest)
      by (rewrite <- (Nat.add_0_r (length pre)), insert_app_r; reflexivity).
    set (ev' := set_data ev (store_words (data ev) (read_words res))).
    set (r1 := set_events r (pre ++ ev' :: rest)).
    assert (Hname : name_at r1 (length pre) = nm)
      by (rewrite <- Hpre; apply (name_at_middle r1 npre nrest); exact Hnm).
    rewrite Hname.
    set (tr1 := tr0 ++ [read (fd ev) snapshot_size res]).
    destruct (IH (pre ++ [ev']) (npre ++ [nm]) rest nrest r1
                ((tr1 ++ read_diagnostic nm res)
                   ++ [ioctl (fd ev) PERF_EVENT_IOC_DISABLE]))
      as (rest' & tr & Hs & E).
    + unfold r1. cbn [events set_events]. rewrite <- app_assoc. reflexivity.
    + unfold r1. cbn [names set_events]. rewrite Hnm, <- app_assoc. reflexivity.
    + rewrite !snoc_length. lia.
    + exact Hlen.
    + exact Hnlen.
    + exists (ev' :: rest'). eexists. split; [exact (stopped_cons _ _ _ _ _ res _ Hs)|].
      rewrite snoc_length in E. unfold read_diagnostic in *.
      destruct (read_ret res =? snapshot_size); cbv beta iota zeta;
        fold tr1; rewrite ?app_nil_r in E; rewrite E; unfold r1, tr1;
        rewrite set_events_set_events, <- !app_assoc; reflexivity.
Qed.

Lemma close_all_spec : forall evs tr0,
  close_all evs tr0 = (tt, tr0 ++ map (fun ev => close (fd ev)) evs).
Proof.
  induction evs as [|ev evs IH]; intros tr0.
  - cbn. unfold ret. rewrite app_nil_r. reflexivity.
  - cbn [close_all map]. unfold bind, emit. cbv beta iota zeta.
    rewrite IH, <- app_assoc. reflexivity.
Qed.

End LifecycleFacts.

(** ** What a run of successful opens looks like *)

Lemma opened_length evs evs' tr :
  opened evs evs' tr -> length evs' = length evs /\ length tr = length evs.
Proof. induction 1; cbn; [split; reflexivity | lia]. Qed.

Lemma opened_pe evs evs' tr : opened evs evs' tr -> map pe evs' = map pe evs.
Proof. induction 1; cbn; [reflexivity | f_equal; assumption]. Qed.

Lemma opened_attrs_of_opened evs evs' tr :
  opened evs evs' tr -> opened_attrs tr = map pe evs.
Proof. induction 1; cbn; [reflexivity | f_equal; assumption]. Qed.

Lemma opened_rets evs evs' tr a ret :
  opened evs evs' tr -> In (perf_event_open a ret) tr -> 0 <= int_of_long ret.
Proof.
  induction 1 as [|ev evs evs' fd' tr Hfd Ho IH]; cbn; [tauto|].
  intros [E|Hin]; [injection E as <- <-; exact Hfd | auto].
Qed.

Lemma opened_syscalls evs evs' tr :
  opened evs evs' tr -> count is_syscall tr = length evs.
Proof.
  unfold count. induction 1; cbn; [reflexivity | f_equal; assumption].
Qed.

Lemma opened_counts evs evs' tr :
  opened evs evs' tr ->
  count is_successful_open tr = length evs /\ count is_close tr = 0%nat
  /\ count is_failed_open tr = 0%nat.
Proof.
  unfold count. induction 1 as [|ev evs evs' fd' tr Hfd Ho IH]; cbn; [auto|].
  rewrite (proj2 (Z.leb_le 0 (int_of_long fd')) Hfd).
  replace (int_of_long fd' <? 0) with false by (symmetry; apply Z.ltb_ge; exact Hfd).
  cbn. lia.
Qed.

Lemma count_app p tr1 tr2 : count p (tr1 ++ tr2) = (count p tr1 + count p tr2)%nat.
Proof. unfold count. rewrite List.filter_app, length_app. reflexivity. Qed.

Lemma opened_attrs_app tr1 tr2 :
  opened_attrs (tr1 ++ tr2) = opened_attrs tr1 ++ opened_attrs tr2.
Proof.
  induction tr1 as [|c tr1 IH]; [reflexivity|].
  destruct c; cbn; rewrite IH; reflexivity.
Qed.

Lemma fds_opened_app tr1 tr2 : fds_opened (tr1 ++ tr2) = fds_opened tr1 ++ fds_opened tr2.
Proof.
  induction tr1 as [|c tr1 IH]; [reflexivity|].
  destruct c; cbn [fds_opened app]; try exact IH.
  destruct (0 <=? int_of_long ret0); [cbn; f_equal|]; exact IH.
Qed.

Lemma fds_closed_app tr1 tr2 : fds_closed (tr1 ++ tr2) = fds_closed tr1 ++ fds_closed tr2.
Proof.
  induction tr1 as [|c tr1 IH]; [reflexivity|].
  destruct c; cbn [fds_closed app]; try exact IH. f_equal. exact IH.
Qed.

Lemma fds_closed_close_all evs :
  fds_closed (map (fun ev => close (fd ev)) evs) = map fd evs.
Proof. induction evs as [|ev evs IH]; cbn; [reflexivity | f_equal; exact IH]. Qed.

Lemma opened_fds evs evs' tr :
  opened evs evs' tr -> fds_opened tr = map fd evs' /\ fds_closed tr = [].
Proof.
  induction 1 as [|ev evs evs' fd' tr Hfd Ho [IH1 IH2]]; cbn [fds_opened fds_closed map];
    [split; reflexivity|].
  rewrite (proj2 (Z.leb_le 0 (int_of_long fd')) Hfd), IH1.
  split; [reflexivity | exact IH2].
Qed.

Lemma no_failed_open_check tr :
  forallb (fun c => negb (is_failed_open c)) tr = true ->
  forall a ret, In (perf_event_open a ret) tr -> 0 <= int_of_long ret.
Proof.
  intros H a ret Hin. rewrite forallb_forall in H. specialize (H _ Hin).
  cbn [is_failed_open] in H.
  destruct (Z.ltb_spec (int_of_long ret) 0); [discriminate | assumption].
Qed.

Lemma started_length evs ns evs' tr :
  started evs ns evs' tr -> length evs' = length evs.
Proof. induction 1; cbn; lia. Qed.

Lemma stopped_length evs ns evs' tr :
  stopped evs ns evs' tr -> length evs' = length evs.
Proof. induction 1; cbn; lia. Qed.

Section FunctionFacts.

Variable sz : Z.
Variable K : kernel.

Lemma PerfEvent_ctor_with :
  PerfEvent_ctor sz K = PerfEvent_with sz K default_counters.
Proof.
  unfold PerfEvent_ctor, PerfEvent_with.
  rewrite register_default_counters_eq, register_all_eq. reflexivity.
Qed.

(** Construction either opens every counter, or stops at the first
    refusal with both vectors empty. *)
Lemma PerfEvent_with_spec cs tr0 :
  (exists evs' tr,
      opened (map (event_of sz) cs) evs' tr
      /\ PerfEvent_with sz K cs tr0
         = (set_names (set_events PerfEvent_new evs') (map c_name cs), tr0 ++ tr))
  \/ (exists done done' c todo fd' tr,
         cs = done ++ c :: todo
         /\ opened (map (event_of sz) done) done' tr
         /\ int_of_long fd' < 0
         /\ PerfEvent_with sz K cs tr0
            = (PerfEvent_new,
               tr0 ++ tr
                 ++ [perf_event_open (pe (event_of sz c)) fd';
                     cerr ("Error opening counter " ++ c_name c)%string])).
Proof.
  unfold PerfEvent_with. rewrite register_all_eq.
  cbn [PerfEvent_new names events set_events set_names app].
  set (r := set_events _ _).
  destruct (open_counters_spec K (length (map (event_of sz) cs)) []
              (map (event_of sz) cs) r tr0 eq_refl eq_refl)
    as [(rest' & tr & Ho & E)|(done & done' & ev & todo & fd' & tr & Hr & Ho & Hneg & E)].
  - left. exists rest', tr. split; [exact Ho|]. exact E.
  - right. apply map_eq_app in Hr. destruct Hr as (cd & ct & -> & <- & Hr).
    apply map_eq_cons in Hr. destruct Hr as (c & ctodo & -> & <- & <-).
    exists cd, done', c, ctodo, fd', tr.
    split; [reflexivity|]. split; [exact Ho|]. split; [exact Hneg|].
    assert (Hn : name_at r (0 + length (map (event_of sz) cd)) = c_name c).
    { rewrite Nat.add_0_l, length_map, <- (length_map c_name cd).
      apply (name_at_middle r _ (map c_name ctodo)).
      unfold r. cbn [names set_events set_names]. rewrite map_app. reflexivity. }
    cbn [length] in E. rewrite E, Hn. reflexivity.
Qed.

Lemma startCounters_spec r tr0 :
  length (names r) = length (events r) ->
  exists evs' tr,
    started (events r) (names r) evs' tr
    /\ startCounters K r tr0
       = (set_startTime (set_events r evs') (k_now K (tr0 ++ tr)),
          tr0 ++ tr ++ [steady_clock_now (k_now K (tr0 ++ tr))]).
Proof.
  intros Hwf.
  destruct (startCounters_loop_spec K (length (events r)) [] [] (events r) (names r)
              r tr0 eq_refl eq_refl eq_refl eq_refl Hwf)
    as (evs' & tr & Hs & E).
  exists evs', tr. split; [exact Hs|].
  unfold startCounters, bind, now, ret. cbn [length] in E. rewrite E.
  cbn [app]. rewrite <- app_assoc. reflexivity.
Qed.

Lemma stopCounters_spec r tr0 :
  length (names r) = length (events r) ->
  exists evs' tr,
    stopped (events r) (names r) evs' tr
    /\ stopCounters K r tr0
       = (set_events (set_stopTime r (k_now K tr0)) evs',
          tr0 ++ [steady_clock_now (k_now K tr0)] ++ tr).
Proof.
  intros Hwf.
  destruct (stopCounters_loop_spec K (length (events r)) [] [] (events r) (names r)
              (set_stopTime r (k_now K tr0)) (tr0 ++ [steady_clock_now (k_now K tr0)])
              eq_refl eq_refl eq_refl eq_refl Hwf)
    as (evs' & tr & Hs & E).
  exists evs', tr. split; [exact Hs|].
  unfold stopCounters, bind, now. cbn [length] in E. cbv beta iota zeta.
  rewrite E. cbn [app]. rewrite <- app_assoc. reflexivity.
Qed.

End FunctionFacts.

(* ================================================================= *)
(** * Lookup by name and derived metrics *)

Lemma name_at_lookup r i n : names r !! i = Some n -> name_at r i = n.
Proof. intros H. unfold name_at. rewrite H. reflexivity. Qed.

Lemma getCounter_loop_found r name ev i : forall d n k,
  (k + d = i)%nat -> (d < n)%nat ->
  names r !! i = Some name ->
  (forall j : nat, (j < i)%nat -> names r !! j <> Some name) ->
  events r !! i = Some ev ->
  getCounter_loop n k r name = readCounter ev.
Proof.
  induction d as [|d IH]; intros n k Hk Hn Hi Hfirst Hev;
    (destruct n as [|n]; [lia|]); cbn [getCounter_loop].
  - replace k with i by lia. rewrite Hev, (name_at_lookup _ _ _ Hi).
    rewrite String.eqb_refl. reflexivity.
  - assert (Hk' : (k < i)%nat) by lia.
    destruct (lookup_lt_is_Some_2 (events r) k) as [evk Hevk].
    { apply lookup_lt_Some in Hev. lia. }
    destruct (lookup_lt_is_Some_2 (names r) k) as [nk Hnk].
    { apply lookup_lt_Some in Hi. lia. }
    rewrite Hevk, (name_at_lookup _ _ _ Hnk).
    destruct (String.eqb_spec nk name) as [->|Hne].
    + exfalso. exact (Hfirst k Hk' Hnk).
    + apply IH; try assumption; lia.
Qed.

Lemma getCounter_loop_absent r name : forall n k,
  length (names r) = length (events r) ->
  (forall i : nat, names r !! i <> Some name) ->
  getCounter_loop n k r name = minus_one.
Proof.
  induction n as [|n IH]; intros k Hwf Hno; cbn [getCounter_loop]; [reflexivity|].
  destruct (events r !! k) as [evk|] eqn:Hevk; [|reflexivity].
  destruct (lookup_lt_is_Some_2 (names r) k) as [nk Hnk].
  { rewrite Hwf. eapply lookup_lt_Some. exact Hevk. }
  rewrite (name_at_lookup _ _ _ Hnk).
  destruct (String.eqb_spec nk name) as [->|Hne].
  - exfalso. exact (Hno k Hnk).
  - apply IH; assumption.
Qed.

Lemma getCounter_first_match r name ev :
  first_match r name ev -> getCounter r name = readCounter ev.
Proof.
  intros (i & Hi & Hfirst & Hev). unfold getCounter.
  apply (getCounter_loop_found r name ev i i (length (events r)) 0%nat);
    try assumption; [lia|].
  eapply lookup_lt_Some. exact Hev.
Qed.

Lemma getCounter_empty r name : events r = [] -> getCounter r name = minus_one.
Proof. intros H. unfold getCounter. rewrite H. reflexivity. Qed.

Lemma readCounter_plain_count ev n :
  plain_count ev n -> 0 <= n < 2 ^ 64 -> readCounter ev = Double.of_Z n.
Proof.
  intros ((Hp & Hv & He) & Hr) Hn.
  assert (Hraw : rawDelta ev = n).
  { unfold rawDelta. rewrite Hp, Hv. cbn [value zero_read_format].
    apply u64_sub_0_r; lia. }
  rewrite <- Hraw. apply readCounter_no_multiplexing; [lia | exact He].
Qed.

(* ================================================================= *)
(** * Construction *)




(** C3, at a run where the code departs from it: the first open succeeds,
    the second is refused, and the registry is destroyed without closing
    the descriptor it was given. *)
Theorem partial_open_leaks_descriptor :
  let K := sample_kernel (Some 1%nat) 24 in
  exec (lifetime 128 K 0) []
  = [ perf_event_open
        (configure_attr 128 PERF_TYPE_HARDWARE PERF_COUNT_HW_CPU_CYCLES false) 3;
      perf_event_open
        (configure_attr 128 PERF_TYPE_HARDWARE PERF_COUNT_HW_CPU_CYCLES true) (-1);
      cerr "Error opening counter kcycle" ]
  /\ count is_successful_open (exec (lifetime 128 K 0) []) = 1%nat
  /\ count is_close (exec (lifetime 128 K 0) []) = 0%nat.
Proof. vm_compute. repeat split; reflexivity. Qed.

(** C8.  Registering [N] counters and opening all of them (every
    descriptor stored is non-negative) gives a registry of [N] entries in
    registration order: the [i]-th name and the [i]-th event belong to the
    [i]-th counter registered, the opens were made in that order, and each
    event holds the descriptor its open returned; the built-in set is
    cycle, kcycle, scycle, instr, L1-miss, LLC-miss, br-miss, task. *)
Theorem all_opened_registry sz K cs tr0 r tr :
  PerfEvent_with sz K cs tr0 = (r, tr0 ++ tr) ->
  (forall a ret, In (perf_event_open a ret) tr -> 0 <= int_of_long ret) ->
  length (events r) = length cs
  /\ names r = map c_name cs
  /\ map pe (events r)
     = map (fun c => configure_attr sz (c_type c) (c_eventID c) (c_exclude_user c)) cs
  /\ opened_attrs tr = map pe (events r)
  /\ fds_opened tr = map fd (events r)
  /\ length tr = length cs
  /\ PerfEvent_ctor sz K = PerfEvent_with sz K default_counters
  /\ map c_name default_counters
     = ["cycle"; "kcycle"; "scycle"; "instr"; "L1-miss"; "LLC-miss"; "br-miss"; "task"].
Proof.
  intros Hctor Hok.
  destruct (PerfEvent_with_spec sz K cs tr0)
    as [(evs' & tr' & Ho & E)|(done & done' & c & todo & fd' & tr' & _ & _ & Hneg & E)];
    rewrite E in Hctor; injection Hctor as <- Htr; apply app_inv_head in Htr.
  - subst tr'. cbn [events names set_events set_names].
    destruct (opened_length _ _ _ Ho) as [Hl Hl']. rewrite length_map in Hl, Hl'.
    destruct (opened_fds _ _ _ Ho) as [Hfds _].
    split; [exact Hl|]. split; [reflexivity|].
    split; [rewrite (opened_pe _ _ _ Ho), map_map; reflexivity|].
    split; [rewrite (opened_attrs_of_opened _ _ _ Ho), (opened_pe _ _ _ Ho); reflexivity|].
    split; [exact Hfds|]. split; [exact Hl'|].
    split; [apply PerfEvent_ctor_with | reflexivity].
  - exfalso. assert (0 <= int_of_long fd'); [|lia].
    apply (Hok (pe (event_of sz c)) fd'). rewrite <- Htr.
    apply in_or_app. right. left. reflexivity.
Qed.

Lemma all_opened_registry_witness :
  let K := sample_kernel None 24 in
  let p := PerfEvent_ctor 128 K [] in
  PerfEvent_with 128 K default_counters [] = (fst p, [] ++ snd p)
  /\ (forall a ret, In (perf_event_open a ret) (snd p) -> 0 <= int_of_long ret)
  /\ length (events (fst p)) = 8%nat
  /\ names (fst p)
     = ["cycle"; "kcycle"; "scycle"; "instr"; "L1-miss"; "LLC-miss"; "br-miss"; "task"]
  /\ map fd (events (fst p)) = [3; 4; 5; 6; 7; 8; 9; 10]
  /\ map (fun a => attr_config a) (opened_attrs (snd p))
     = [0; 0; 0x43FFAE; 1; 65536; 3; 5; 1]
  /\ map fd (events (fst (PerfEvent_ctor 128 (wide_kernel (3 - 2 ^ 32)) [])))
     = [3; 4; 5; 6; 7; 8; 9; 10].
Proof.
  intros K p.
  assert (Hctor : PerfEvent_with 128 K default_counters [] = (fst p, [] ++ snd p))
    by (vm_compute; reflexivity).
  assert (Hok : forall a ret, In (perf_event_open a ret) (snd p) -> 0 <= int_of_long ret).
  { apply no_failed_open_check. vm_compute. reflexivity. }
  split; [exact Hctor|]. split; [exact Hok|].
  destruct (all_opened_registry 128 K default_counters [] (fst p) (snd p) Hctor Hok)
    as (Hl & Hn & _).
  split; [exact Hl|]. split; [exact Hn|].
  split; [|split]; vm_compute; reflexivity.
Defined.

(** C9.  The attribute blocks the constructor passes to
    [perf_event_open] are those of the built-in counters, in table order,
    up to the first refusal.  Every one of them asks for a counter that is
    initially disabled, inherited by children, reporting enabled and
    running time (and neither an id nor a group), with kernel and
    hypervisor samples included; user space is excluded in the block of
    [kcycle], the second one, and in no other. *)
Theorem default_open_configuration sz K tr0 r tr :
  PerfEvent_ctor sz K tr0 = (r, tr0 ++ tr) ->
  exists k : nat,
    (1 <= k <= 8)%nat
    /\ length (opened_attrs tr) = k
    /\ ((forall a ret, In (perf_event_open a ret) tr -> 0 <= int_of_long ret) ->
        k = 8%nat)
    /\ map attr_type (opened_attrs tr)
       = take k [PERF_TYPE_HARDWARE; PERF_TYPE_HARDWARE; PERF_TYPE_RAW;
                 PERF_TYPE_HARDWARE; PERF_TYPE_HW_CACHE; PERF_TYPE_HARDWARE;
                 PERF_TYPE_HARDWARE; PERF_TYPE_SOFTWARE]
    /\ map attr_config (opened_attrs tr)
       = take k [PERF_COUNT_HW_CPU_CYCLES; PERF_COUNT_HW_CPU_CYCLES; 0x43FFAE;
                 PERF_COUNT_HW_INSTRUCTIONS; 65536; PERF_COUNT_HW_CACHE_MISSES;
                 PERF_COUNT_HW_BRANCH_MISSES; PERF_COUNT_SW_TASK_CLOCK]
    /\ map attr_exclude_user (opened_attrs tr)
       = take k [false; true; false; false; false; false; false; false]
    /\ map attr_exclude_user (opened_attrs tr)
       = take k (map (fun c => String.eqb (c_name c) "kcycle") default_counters)
    /\ map c_name default_counters
       = ["cycle"; "kcycle"; "scycle"; "instr"; "L1-miss"; "LLC-miss"; "br-miss"; "task"]
    /\ (forall a, In a (opened_attrs tr) ->
        attr_disabled a = true
        /\ attr_inherit a = true
        /\ attr_inherit_stat a = false
        /\ attr_exclude_kernel a = false
        /\ attr_exclude_hv a = false
        /\ attr_size a = sz
        /\ attr_read_format a
           = Z.lor PERF_FORMAT_TOTAL_TIME_ENABLED PERF_FORMAT_TOTAL_TIME_RUNNING
        /\ Z.land (attr_read_format a) (Z.lor PERF_FORMAT_ID PERF_FORMAT_GROUP) = 0).
Proof.
  intros Hctor.
  set (attr := fun c => configure_attr sz (c_type c) (c_eventID c) (c_exclude_user c)).
  assert (Hpre : exists k : nat,
             (1 <= k <= 8)%nat
             /\ ((forall a ret, In (perf_event_open a ret) tr -> 0 <= int_of_long ret) ->
                 k = 8%nat)
             /\ opened_attrs tr = take k (map attr default_counters)).
  { rewrite PerfEvent_ctor_with in Hctor.
    destruct (PerfEvent_with_spec sz K default_counters tr0)
      as [(evs' & tr' & Ho & E)|(done & done' & c & todo & fd' & tr' & Hcs & Ho & Hneg & E)];
      rewrite E in Hctor; injection Hctor as <- Htr; apply app_inv_head in Htr;
      subst tr.
    - exists (length default_counters).
      split; [cbn; lia|]. split; [reflexivity|].
      rewrite (opened_attrs_of_opened _ _ _ Ho), map_map.
      rewrite firstn_all2 by (rewrite length_map; lia). reflexivity.
    - exists (length (done ++ [c])).
      assert (Hlen : (length (done ++ [c]) <= 8)%nat).
      { apply (f_equal (@length _)) in Hcs. rewrite !length_app in *.
        cbn in Hcs |- *. lia. }
      split; [rewrite length_app in *; cbn in *; lia|].
      split.
      { intros Hok. exfalso. assert (0 <= int_of_long fd'); [|lia].
        apply (Hok (pe (event_of sz c)) fd').
        apply in_or_app. right. left. reflexivity. }
      rewrite opened_attrs_app, (opened_attrs_of_opened _ _ _ Ho), map_map.
      rewrite Hcs. change (done ++ c :: todo) with (done ++ [c] ++ todo).
      rewrite app_assoc, map_app.
      rewrite take_app_length' by (rewrite length_map; reflexivity).
      rewrite map_app. reflexivity. }
  destruct Hpre as (k & Hk & Hall & Hattrs).
  exists k. split; [exact Hk|].
  split; [rewrite Hattrs, length_take, length_map; cbn; lia|].
  split; [exact Hall|].
  rewrite Hattrs, <- !firstn_map.
  split; [reflexivity|]. split; [reflexivity|]. split; [reflexivity|].
  split; [reflexivity|]. split; [reflexivity|].
  intros a Ha.
  assert (Hin : In a (map attr default_counters)).
  { rewrite <- (take_drop k (map attr default_counters)).
    apply in_or_app. left. exact Ha. }
  apply in_map_iff in Hin. destruct Hin as (c & <- & Hc).
  repeat split; reflexivity.
Qed.

Lemma default_open_configuration_witness :
  let K := sample_kernel (Some 1%nat) 24 in
  let tr :=
    [ perf_event_open
        (configure_attr 128 PERF_TYPE_HARDWARE PERF_COUNT_HW_CPU_CYCLES false) 3;
      perf_event_open
        (configure_attr 128 PERF_TYPE_HARDWARE PERF_COUNT_HW_CPU_CYCLES true) (-1);
      cerr "Error opening counter kcycle" ] in
  PerfEvent_ctor 128 K [] = (PerfEvent_new, [] ++ tr)
  /\ map attr_exclude_user (opened_attrs tr) = [false; true].
Proof.
  intros K tr.
  assert (Hctor : PerfEvent_ctor 128 K [] = (PerfEvent_new, [] ++ tr))
    by (vm_compute; reflexivity).
  split; [exact Hctor|].
  destruct (default_open_configuration 128 K [] PerfEvent_new tr Hctor)
    as (k & _ & Hlen & _ & _ & _ & Hex & _).
  rewrite Hex, <- Hlen. reflexivity.
Defined.

(* ================================================================= *)
(** * Measurement windows *)








(* ================================================================= *)
(** * Values *)

(** C4.  [getCounter] returns the corrected value of the first counter, in
    registration order, whose name is the one asked for, and the sentinel
    [-1] when no counter has that name. *)
Theorem getCounter_lookup r name :
  length (names r) = length (events r) ->
  (forall ev, first_match r name ev -> getCounter r name = readCounter ev)
  /\ ((forall i : nat, names r !! i <> Some name) -> getCounter r name = minus_one)
  /\ Double.is_Z minus_one (-1).
Proof.
  intros Hwf. split; [intros ev; apply getCounter_first_match|].
  split; [|reflexivity].
  intros Hno. apply getCounter_loop_absent; assumption.
Qed.

Lemma getCounter_lookup_witness :
  let e1 := sample_event (0, 0, 0) (10, 5, 5) in
  let e2 := sample_event (0, 0, 0) (20, 5, 5) in
  let e3 := sample_event (0, 0, 0) (30, 5, 5) in
  let r := sample_registry ["a"; "b"; "a"] [e1; e2; e3] in
  length (names r) = length (events r)
  /\ getCounter r "a" = readCounter e1
  /\ getCounter r "c" = minus_one.
Proof.
  intros e1 e2 e3 r.
  destruct (getCounter_lookup r "a" eq_refl) as (Ha & _).
  destruct (getCounter_lookup r "c" eq_refl) as (_ & Hc & _).
  split; [reflexivity|]. split.
  - apply Ha. exists 0%nat. split; [reflexivity|]. split; [lia | reflexivity].
  - apply Hc. intros [|[|[|i]]]; discriminate.
Defined.

(** C5 (amended).  The derived metrics are the quotients of the values
    looked up by name: IPC = instr / cycle, CPUs = task / (duration * 1e9)
    where the duration is the difference of the stop and start time
    stamps in seconds, GHz = cycle / task.  With a zero baseline and equal
    non-zero enabled and running differences, 1000 instructions and 500
    cycles give an IPC of exactly 2, and 3000000000 cycles with a task
    clock of 1000000000 give exactly 3 GHz; a task clock of 2000000000
    over one second of wall-clock time gives exactly 2 CPUs. *)
Theorem derived_metrics r :
  getIPC r = Double.div (getCounter r "instr") (getCounter r "cycle")
  /\ getDuration r = Double.div (Double.of_Z (stopTime r - startTime r)) d_1e9
  /\ getCPUs r
     = Double.div (getCounter r "task")
         (Double.mul (Double.div (Double.of_Z (stopTime r - startTime r)) d_1e9)
            d_1e9)
  /\ getGHz r = Double.div (getCounter r "cycle") (getCounter r "task")
  /\ Double.is_Z d_1e9 1000000000
  /\ (forall ei ec,
         first_match r "instr" ei -> plain_count ei 1000 ->
         first_match r "cycle" ec -> plain_count ec 500 ->
         getIPC r = Double.of_Z 2 /\ Double.is_Z (getIPC r) 2)
  /\ (forall ec et,
         first_match r "cycle" ec -> plain_count ec 3000000000 ->
         first_match r "task" et -> plain_count et 1000000000 ->
         getGHz r = Double.of_Z 3 /\ Double.is_Z (getGHz r) 3)
  /\ (forall et,
         first_match r "task" et -> plain_count et 2000000000 ->
         stopTime r - startTime r = 1000000000 ->
         Double.is_Z (getDuration r) 1
         /\ getCPUs r = Double.of_Z 2 /\ Double.is_Z (getCPUs r) 2).
Proof.
  split; [reflexivity|]. split; [reflexivity|]. split; [reflexivity|].
  split; [reflexivity|]. split; [vm_compute; reflexivity|]. split; [|split].
  - intros ei ec Hi Hpi Hc Hpc.
    assert (E : getIPC r = Double.of_Z 2).
    { unfold getIPC.
      rewrite (getCounter_first_match _ _ _ Hi), (getCounter_first_match _ _ _ Hc).
      rewrite (readCounter_plain_count _ _ Hpi), (readCounter_plain_count _ _ Hpc) by lia.
      vm_compute. reflexivity. }
    split; [exact E|]. rewrite E. vm_compute. reflexivity.
  - intros ec et Hc Hpc Ht Hpt.
    assert (E : getGHz r = Double.of_Z 3).
    { unfold getGHz.
      rewrite (getCounter_first_match _ _ _ Hc), (getCounter_first_match _ _ _ Ht).
      rewrite (readCounter_plain_count _ _ Hpc), (readCounter_plain_count _ _ Hpt) by lia.
      vm_compute. reflexivity. }
    split; [exact E|]. rewrite E. vm_compute. reflexivity.
  - intros et Ht Hpt Hd.
    assert (D : getDuration r = Double.of_Z 1).
    { unfold getDuration. rewrite Hd. vm_compute. reflexivity. }
    assert (E : getCPUs r = Double.of_Z 2).
    { unfold getCPUs. rewrite D, (getCounter_first_match _ _ _ Ht).
      rewrite (readCounter_plain_count _ _ Hpt) by lia.
      vm_compute. reflexivity. }
    split; [rewrite D; vm_compute; reflexivity|].
    split; [exact E|]. rewrite E. vm_compute. reflexivity.
Qed.

Lemma derived_metrics_witness :
  let ei := sample_event (0, 0, 0) (1000, 7, 7) in
  let ec := sample_event (0, 0, 0) (500, 9, 9) in
  let r := sample_registry ["cycle"; "instr"] [ec; ei] in
  let ec' := sample_event (0, 0, 0) (3000000000, 7, 7) in
  let et' := sample_event (0, 0, 0) (1000000000, 9, 9) in
  let r' := sample_registry ["cycle"; "task"] [ec'; et'] in
  let et2 := sample_event (0, 0, 0) (2000000000, 5, 5) in
  let r2 := set_stopTime (set_startTime (sample_registry ["task"] [et2]) 500)
              1000000500 in
  (first_match r "instr" ei /\ plain_count ei 1000
   /\ first_match r "cycle" ec /\ plain_count ec 500
   /\ getIPC r = Double.of_Z 2)
  /\ (first_match r' "cycle" ec' /\ plain_count ec' 3000000000
      /\ first_match r' "task" et' /\ plain_count et' 1000000000
      /\ getGHz r' = Double.of_Z 3)
  /\ (first_match r2 "task" et2 /\ plain_count et2 2000000000
      /\ stopTime r2 - startTime r2 = 1000000000
      /\ getCPUs r2 = Double.of_Z 2).
Proof.
  intros ei ec r ec' et' r' et2 r2.
  assert (Hi : first_match r "instr" ei).
  { exists 1%nat. split; [reflexivity|]. split; [|reflexivity].
    intros [|j] Hj; [discriminate | lia]. }
  assert (Hc : first_match r "cycle" ec).
  { exists 0%nat. split; [reflexivity|]. split; [lia | reflexivity]. }
  assert (Hc' : first_match r' "cycle" ec').
  { exists 0%nat. split; [reflexivity|]. split; [lia | reflexivity]. }
  assert (Ht' : first_match r' "task" et').
  { exists 1%nat. split; [reflexivity|]. split; [|reflexivity].
    intros [|j] Hj; [discriminate | lia]. }
  assert (Ht2 : first_match r2 "task" et2).
  { exists 0%nat. split; [reflexivity|]. split; [lia | reflexivity]. }
  assert (Hpi : plain_count ei 1000) by (repeat split; reflexivity).
  assert (Hpc : plain_count ec 500) by (repeat split; reflexivity).
  assert (Hpc' : plain_count ec' 3000000000) by (repeat split; reflexivity).
  assert (Hpt' : plain_count et' 1000000000) by (repeat split; reflexivity).
  assert (Hpt2 : plain_count et2 2000000000) by (repeat split; reflexivity).
  assert (Hd2 : stopTime r2 - startTime r2 = 1000000000) by reflexivity.
  destruct (derived_metrics r) as (_ & _ & _ & _ & _ & Hipc & _).
  destruct (derived_metrics r') as (_ & _ & _ & _ & _ & _ & Hghz & _).
  destruct (derived_metrics r2) as (_ & _ & _ & _ & _ & _ & _ & Hcpu).
  split; [|split].
  - repeat (split; [assumption|]). exact (proj1 (Hipc ei ec Hi Hpi Hc Hpc)).
  - repeat (split; [assumption|]). exact (proj1 (Hghz ec' et' Hc' Hpc' Ht' Hpt')).
  - repeat (split; [assumption|]).
    exact (proj1 (proj2 (Hcpu et2 Ht2 Hpt2 Hd2))).
Defined.

(** C5 as stated fails: a zero baseline with equal enabled and running
    differences allows both to be zero, and then the corrected values and
    the IPC are NaN. *)
Lemma getIPC_nan_with_zero_times :
  ~ (forall r ei ec,
        first_match r "instr" ei -> zero_baseline_count ei 1000 ->
        first_match r "cycle" ec -> zero_baseline_count ec 500 ->
        getIPC r = Double.of_Z 2).
Proof.
  intros H.
  set (ei := sample_event (0, 0, 0) (1000, 0, 0)).
  set (ec := sample_event (0, 0, 0) (500, 0, 0)).
  set (r := sample_registry ["cycle"; "instr"] [ec; ei]).
  assert (Hi : first_match r "instr" ei).
  { exists 1%nat. split; [reflexivity|]. split; [|reflexivity].
    intros [|j] Hj; [discriminate | lia]. }
  assert (Hc : first_match r "cycle" ec).
  { exists 0%nat. split; [reflexivity|]. split; [lia | reflexivity]. }
  assert (Hpi : zero_baseline_count ei 1000) by (repeat split; reflexivity).
  assert (Hpc : zero_baseline_count ec 500) by (repeat split; reflexivity).
  specialize (H r ei ec Hi Hpi Hc Hpc). vm_compute in H. discriminate H.
Qed.

(** C10.  On a registry without counters every lookup returns the sentinel
    [-1], so [getIPC] and [getGHz], each the sentinel divided by itself,
    return exactly 1. *)
Theorem empty_registry_metrics r :
  events r = [] ->
  (forall name, getCounter r name = minus_one)
  /\ getIPC r = Double.one
  /\ getGHz r = Double.one
  /\ Double.is_Z Double.one 1.
Proof.
  intros He.
  assert (Hg : forall name, getCounter r name = minus_one)
    by (intros name; apply getCounter_empty; exact He).
  split; [exact Hg|].
  unfold getIPC, getGHz. rewrite !Hg.
  repeat split; vm_compute; reflexivity.
Qed.

Lemma empty_registry_metrics_witness :
  events PerfEvent_new = []
  /\ getIPC PerfEvent_new = Double.one
  /\ getGHz PerfEvent_new = Double.one.
Proof.
  split; [reflexivity|].
  destruct (empty_registry_metrics PerfEvent_new eq_refl) as (_ & Hi & Hg & _).
  split; [exact Hi | exact Hg].
Defined.

(* ================================================================= *)
(** * Further properties of the registry *)

Lemma read_diagnostic_quiet nm res :
  fds_opened (read_diagnostic nm res) = [] /\ fds_closed (read_diagnostic nm res) = []
  /\ count is_syscall (read_diagnostic nm res) = 0%nat
  /\ count is_cout (read_diagnostic nm res) = 0%nat
  /\ count is_short_read (read_diagnostic nm res) = 0%nat
  /\ count is_cerr (read_diagnostic nm res)
     = (if read_ret res =? snapshot_size then 0%nat else 1%nat)
  /\ count is_open (read_diagnostic nm res) = 0%nat.
Proof.
  unfold read_diagnostic, count.
  destruct (read_ret res =? snapshot_size); cbn; repeat split; reflexivity.
Qed.

(** What [startCounters] leaves alone, and what its calls are. *)
Lemma started_facts evs ns evs' tr :
  started evs ns evs' tr ->
  map fd evs' = map fd evs /\ map pe evs' = map pe evs /\ map data evs' = map data evs
  /\ fds_opened tr = [] /\ fds_closed tr = []
  /\ count is_syscall tr = (3 * length evs)%nat
  /\ count is_cerr tr = count is_short_read tr
  /\ count is_cout tr = 0%nat
  /\ count is_open tr = 0%nat.
Proof.
  induction 1
    as [|ev evs n ns evs' res tr Hs (IH1 & IH2 & IH3 & IH4 & IH5 & IH6 & IH7 & IH8 & IH9)].
  - repeat split; reflexivity.
  - destruct (read_diagnostic_quiet n res) as (D1 & D2 & D3 & D4 & D5 & D6 & D7).
    cbn [map length]. rewrite IH1, IH2, IH3.
    rewrite !fds_opened_app, !fds_closed_app, !count_app, D1, D2, D3, D4, D5, D6, D7, IH4, IH5.
    rewrite IH6, IH7, IH8, IH9. unfold count. cbn.
    destruct (read_ret res =? snapshot_size); cbn;
      repeat split; try reflexivity; lia.
Qed.

(** What [stopCounters] leaves alone, and what its calls are. *)
Lemma stopped_facts evs ns evs' tr :
  stopped evs ns evs' tr ->
  map fd evs' = map fd evs /\ map pe evs' = map pe evs /\ map prev evs' = map prev evs
  /\ fds_opened tr = [] /\ fds_closed tr = []
  /\ count is_syscall tr = (2 * length evs)%nat
  /\ count is_cerr tr = count is_short_read tr
  /\ count is_cout tr = 0%nat
  /\ count is_open tr = 0%nat.
Proof.
  induction 1
    as [|ev evs n ns evs' res tr Hs (IH1 & IH2 & IH3 & IH4 & IH5 & IH6 & IH7 & IH8 & IH9)].
  - repeat split; reflexivity.
  - destruct (read_diagnostic_quiet n res) as (D1 & D2 & D3 & D4 & D5 & D6 & D7).
    cbn [map length]. rewrite IH1, IH2, IH3.
    rewrite !fds_opened_app, !fds_closed_app, !count_app, D1, D2, D3, D4, D5, D6, D7, IH4, IH5.
    rewrite IH6, IH7, IH8, IH9. unfold count. cbn.
    destruct (read_ret res =? snapshot_size); cbn;
      repeat split; try reflexivity; lia.
Qed.

Lemma measure_spec K : forall n r tr0,
  length (names r) = length (events r) ->
  exists r' tr,
    measure K n r tr0 = (r', tr0 ++ tr)
    /\ names r' = names r
    /\ map fd (events r') = map fd (events r)
    /\ map pe (events r') = map pe (events r)
    /\ fds_opened tr = [] /\ fds_closed tr = []
    /\ count is_syscall tr = (n * (5 * length (events r)))%nat
    /\ count is_open tr = 0%nat.
Proof.
  induction n as [|n IH]; intros r tr0 Hwf.
  - exists r, []. cbn [measure]. unfold ret. rewrite app_nil_r.
    repeat split; reflexivity.
  - destruct (startCounters_spec K r tr0 Hwf) as (evs1 & tr1 & Hs1 & E1).
    destruct (started_facts _ _ _ _ Hs1) as (F1 & P1 & _ & O1 & C1 & S1 & _ & _ & N1).
    set (r1 := set_startTime (set_events r evs1) (k_now K (tr0 ++ tr1))) in *.
    assert (Hl1 : length evs1 = length (events r)) by exact (started_length _ _ _ _ Hs1).
    assert (Hwf1 : length (names r1) = length (events r1)) by (cbn; lia).
    destruct (stopCounters_spec K r1 (tr0 ++ tr1 ++ [steady_clock_now (k_now K (tr0 ++ tr1))]) Hwf1)
      as (evs2 & tr2 & Hs2 & E2).
    destruct (stopped_facts _ _ _ _ Hs2) as (F2 & P2 & _ & O2 & C2 & S2 & _ & _ & N2).
    set (t2 := k_now K (tr0 ++ tr1 ++ [steady_clock_now (k_now K (tr0 ++ tr1))])) in *.
    set (r2 := set_events (set_stopTime r1 t2) evs2) in *.
    assert (Hl2 : length evs2 = length (events r)).
    { rewrite (stopped_length _ _ _ _ Hs2). exact Hl1. }
    assert (Hwf2 : length (names r2) = length (events r2)) by (cbn; lia).
    destruct (IH r2 ((tr0 ++ tr1 ++ [steady_clock_now (k_now K (tr0 ++ tr1))])
                       ++ [steady_clock_now t2] ++ tr2) Hwf2)
      as (r' & tr3 & E3 & N3 & F3 & P3 & O3 & C3 & S3 & N4).
    exists r'. eexists.
    split.
    { cbn [measure]. unfold bind. rewrite E1, E2, E3.
      rewrite <- !app_assoc. reflexivity. }
    cbn [events names set_events set_stopTime set_startTime r1 r2] in *.
    rewrite N3, F3, P3, F2, P2, F1, P1.
    rewrite !fds_opened_app, !fds_closed_app, !count_app, O1, O2, O3, C1, C2, C3.
    rewrite S1, S2, S3, N1, N2, N4, Hl2, Hl1. unfold count. cbn.
    repeat split; try reflexivity; lia.
Qed.

(** X1.  Whatever the kernel answers, the constructor leaves as many
    names as events: all eight counters, or none. *)
Theorem constructor_vectors_agree sz K tr0 :
  let r := eval (PerfEvent_ctor sz K) tr0 in
  length (names r) = length (events r)
  /\ (length (events r) = 8%nat \/ events r = []).
Proof.
  unfold eval. rewrite PerfEvent_ctor_with.
  destruct (PerfEvent_with_spec sz K default_counters tr0)
    as [(evs' & tr' & Ho & E)|(done & done' & c & todo & fd' & tr' & _ & _ & _ & E)];
    rewrite E; cbn [fst events names set_events set_names PerfEvent_new].
  - destruct (opened_length _ _ _ Ho) as [Hl _]. rewrite length_map in Hl.
    rewrite Hl. split; [reflexivity | left; reflexivity].
  - split; [reflexivity | right; reflexivity].
Qed.

(** X2.  [startCounters] changes nothing but the baselines and the start
    time stamp: names, descriptors, attributes, final snapshots, stop
    time stamp, parameters and header flag are as before. *)
Theorem startCounters_keeps K r tr0 :
  length (names r) = length (events r) ->
  let r' := eval (startCounters K r) tr0 in
  names r' = names r
  /\ map fd (events r') = map fd (events r)
  /\ map pe (events r') = map pe (events r)
  /\ map data (events r') = map data (events r)
  /\ stopTime r' = stopTime r
  /\ params r' = params r
  /\ printHeader r' = printHeader r.
Proof.
  intros Hwf. unfold eval.
  destruct (startCounters_spec K r tr0 Hwf) as (evs' & tr & Hs & E). rewrite E.
  destruct (started_facts _ _ _ _ Hs) as (F & P & D & _).
  cbn. repeat split; assumption || reflexivity.
Qed.

Lemma startCounters_keeps_witness :
  let K := sample_kernel None 24 in
  let r := sample_registry ["a"] [sample_event (1, 2, 3) (4, 5, 6)] in
  length (names r) = length (events r)
  /\ map data (events (eval (startCounters K r) [])) = map data (events r).
Proof.
  intros K r. split; [reflexivity|].
  destruct (startCounters_keeps K r [] eq_refl) as (_ & _ & _ & H & _). exact H.
Defined.

(** X3.  [stopCounters] changes nothing but the final snapshots and the
    stop time stamp: names, descriptors, attributes, baselines, start
    time stamp, parameters and header flag are as before. *)
Theorem stopCounters_keeps K r tr0 :
  length (names r) = length (events r) ->
  let r' := eval (stopCounters K r) tr0 in
  names r' = names r
  /\ map fd (events r') = map fd (events r)
  /\ map pe (events r') = map pe (events r)
  /\ map prev (events r') = map prev (events r)
  /\ startTime r' = startTime r
  /\ params r' = params r
  /\ printHeader r' = printHeader r.
Proof.
  intros Hwf. unfold eval.
  destruct (stopCounters_spec K r tr0 Hwf) as (evs' & tr & Hs & E). rewrite E.
  destruct (stopped_facts _ _ _ _ Hs) as (F & P & D & _).
  cbn. repeat split; assumption || reflexivity.
Qed.

Lemma stopCounters_keeps_witness :
  let K := sample_kernel None 24 in
  let r := sample_registry ["a"] [sample_event (1, 2, 3) (4, 5, 6)] in
  length (names r) = length (events r)
  /\ map prev (events (eval (stopCounters K r) [])) = map prev (events r).
Proof.
  intros K r. split; [reflexivity|].
  destruct (stopCounters_keeps K r [] eq_refl) as (_ & _ & _ & H & _). exact H.
Defined.

(** X4.  A measurement makes three kernel calls per counter when it
    starts and two when it stops, prints nothing on the standard output,
    and prints one diagnostic line per read that returned another size
    than the snapshot's, none otherwise. *)
Theorem one_diagnostic_per_short_read K r tr0 :
  length (names r) = length (events r) ->
  exists tr1 tr2,
    exec (startCounters K r) tr0 = tr0 ++ tr1
    /\ exec (stopCounters K r) tr0 = tr0 ++ tr2
    /\ count is_syscall tr1 = (3 * length (events r))%nat
    /\ count is_syscall tr2 = (2 * length (events r))%nat
    /\ count is_cerr tr1 = count is_short_read tr1
    /\ count is_cerr tr2 = count is_short_read tr2
    /\ count is_cout tr1 = 0%nat /\ count is_cout tr2 = 0%nat.
Proof.
  intros Hwf. unfold exec.
  destruct (startCounters_spec K r tr0 Hwf) as (evs1 & tr1 & Hs1 & E1).
  destruct (stopCounters_spec K r tr0 Hwf) as (evs2 & tr2 & Hs2 & E2).
  destruct (started_facts _ _ _ _ Hs1) as (_ & _ & _ & _ & _ & S1 & D1 & Q1 & _).
  destruct (stopped_facts _ _ _ _ Hs2) as (_ & _ & _ & _ & _ & S2 & D2 & Q2 & _).
  rewrite E1, E2. cbn [snd]. eexists. eexists.
  split; [reflexivity|]. split; [reflexivity|].
  rewrite !count_app, S1, S2, D1, D2, Q1, Q2. unfold count. cbn.
  repeat split; lia.
Qed.

Lemma one_diagnostic_per_short_read_witness :
  let K := sample_kernel None 8 in
  let r := sample_registry ["a"] [sample_event (1, 2, 3) (4, 5, 6)] in
  length (names r) = length (events r)
  /\ exists tr1 tr2,
      exec (startCounters K r) [] = [] ++ tr1
      /\ exec (stopCounters K r) [] = [] ++ tr2
      /\ count is_syscall tr1 = (3 * length (events r))%nat
      /\ count is_syscall tr2 = (2 * length (events r))%nat
      /\ count is_cerr tr1 = count is_short_read tr1
      /\ count is_cerr tr2 = count is_short_read tr2
      /\ count is_cout tr1 = 0%nat /\ count is_cout tr2 = 0%nat.
Proof.
  intros K r. split; [reflexivity|].
  exact (one_diagnostic_per_short_read K r [] eq_refl).
Defined.

Lemma lifetime_spec sz K n tr0 :
  (exists evs' tr1 tr2,
      opened (map (event_of sz) default_counters) evs' tr1
      /\ fds_opened tr2 = [] /\ fds_closed tr2 = [] /\ count is_open tr2 = 0%nat
      /\ lifetime sz K n tr0
         = (tt, tr0 ++ tr1 ++ tr2 ++ map (fun ev => close (fd ev)) evs'))
  \/ (exists done done' c todo fd' tr1 tr2,
         default_counters = done ++ c :: todo
         /\ opened (map (event_of sz) done) done' tr1
         /\ int_of_long fd' < 0
         /\ count is_syscall tr2 = 0%nat
         /\ lifetime sz K n tr0
            = (tt, tr0 ++ tr1
                     ++ [perf_event_open (pe (event_of sz c)) fd';
                         cerr ("Error opening counter " ++ c_name c)%string]
                     ++ tr2)).
Proof.
  unfold lifetime, bind. rewrite PerfEvent_ctor_with.
  destruct (PerfEvent_with_spec sz K default_counters tr0)
    as [(evs' & tr1 & Ho & E)|(done & done' & c & todo & fd' & tr1 & Hcs & Ho & Hneg & E)];
    rewrite E.
  - left. set (r := set_names (set_events PerfEvent_new evs') (map c_name default_counters)).
    assert (Hwf : length (names r) = length (events r)).
    { destruct (opened_length _ _ _ Ho) as [Hl _].
      cbn [r names events set_names set_events]. rewrite Hl, !length_map. reflexivity. }
    destruct (measure_spec K n r (tr0 ++ tr1) Hwf)
      as (r' & tr2 & E2 & _ & F2 & _ & O2 & C2 & _ & N2).
    rewrite E2. unfold PerfEvent_dtor. rewrite close_all_spec.
    exists evs', tr1, tr2. split; [exact Ho|]. split; [exact O2|]. split; [exact C2|].
    split; [exact N2|].
    rewrite <- !app_assoc. f_equal. f_equal. f_equal. f_equal.
    transitivity (map close (map fd (events r'))); [rewrite map_map; reflexivity|].
    rewrite F2. cbn [r events set_names set_events]. rewrite map_map. reflexivity.
  - right.
    destruct (measure_spec K n PerfEvent_new
                (tr0 ++ tr1 ++ [perf_event_open (pe (event_of sz c)) fd';
                                cerr ("Error opening counter " ++ c_name c)%string])
                eq_refl)
      as (r' & tr2 & E2 & _ & F2 & _ & _ & _ & S2 & _).
    rewrite E2. unfold PerfEvent_dtor. rewrite close_all_spec.
    cbn [events PerfEvent_new map length] in F2, S2.
    destruct (events r'); [|discriminate].
    exists done, done', c, todo, fd', tr1, tr2.
    split; [exact Hcs|]. split; [exact Ho|]. split; [exact Hneg|].
    split; [rewrite S2; lia|].
    cbn [map]. rewrite app_nil_r, <- !app_assoc. reflexivity.
Qed.

(** X5.  When no open fails (every descriptor stored, the kernel's answer
    as an [int], is non-negative), the life of a registry closes exactly
    the descriptors its eight opens returned, each once and in the order
    they were opened, however many measurement windows ran in between. *)
Theorem lifetime_closes_what_it_opened sz K n tr0 tr :
  lifetime sz K n tr0 = (tt, tr0 ++ tr) ->
  (forall a ret, In (perf_event_open a ret) tr -> 0 <= int_of_long ret) ->
  fds_closed tr = fds_opened tr /\ length (fds_opened tr) = 8%nat.
Proof.
  intros Hlife Hok.
  destruct (lifetime_spec sz K n tr0)
    as [(evs' & tr1 & tr2 & Ho & O2 & C2 & _ & E)
       |(done & done' & c & todo & fd' & tr1 & tr2 & _ & _ & Hneg & _ & E)];
    rewrite E in Hlife; injection Hlife as Htr; apply app_inv_head in Htr; subst tr.
  - destruct (opened_fds _ _ _ Ho) as [O1 C1].
    destruct (opened_length _ _ _ Ho) as [Hl _]. rewrite length_map in Hl.
    rewrite !fds_closed_app, !fds_opened_app, O1, C1, O2, C2, fds_closed_close_all.
    assert (O3 : fds_opened (map (fun ev => close (fd ev)) evs') = []).
    { clear. induction evs' as [|ev evs IH]; [reflexivity | exact IH]. }
    rewrite O3, !app_nil_r. cbn [app]. split; [reflexivity|].
    rewrite length_map. exact Hl.
  - exfalso. assert (0 <= int_of_long fd'); [|lia].
    apply (Hok (pe (event_of sz c)) fd').
    apply in_or_app. right. left. reflexivity.
Qed.

Lemma lifetime_closes_what_it_opened_witness :
  let K := sample_kernel None 24 in
  let tr := exec (lifetime 128 K 1) [] in
  (forall a ret, In (perf_event_open a ret) tr -> 0 <= int_of_long ret)
  /\ fds_closed tr = [3; 4; 5; 6; 7; 8; 9; 10]
  /\ fds_closed tr = fds_opened tr
  /\ fds_closed (exec (lifetime 128 (wide_kernel (3 - 2 ^ 32)) 1) [])
     = [3; 4; 5; 6; 7; 8; 9; 10].
Proof.
  intros K tr.
  assert (Hlife : lifetime 128 K 1 [] = (tt, [] ++ tr)) by (vm_compute; reflexivity).
  assert (Hok : forall a ret, In (perf_event_open a ret) tr -> 0 <= int_of_long ret).
  { apply no_failed_open_check. vm_compute. reflexivity. }
  split; [exact Hok|]. split; [vm_compute; reflexivity|].
  split; [|vm_compute; reflexivity].
  exact (proj1 (lifetime_closes_what_it_opened 128 K 1 [] tr Hlife Hok)).
Defined.

Lemma count_cons p c tr :
  count p (c :: tr) = ((if p c then 1 else 0) + count p tr)%nat.
Proof. unfold count. cbn. destruct (p c); reflexivity. Qed.

Lemma no_syscall_facts tr :
  count is_syscall tr = 0%nat ->
  fds_closed tr = [] /\ fds_opened tr = [] /\ count is_failed_open tr = 0%nat.
Proof.
  unfold count. induction tr as [|c tr IH]; [repeat split; reflexivity|].
  destruct c; cbn; intros H; try discriminate; exact (IH H).
Qed.

Lemma no_open_facts tr a ret :
  count is_open tr = 0%nat -> ~ In (perf_event_open a ret) tr.
Proof.
  unfold count. induction tr as [|c tr IH]; [intros _ []|].
  destruct c; cbn; intros H [E|Hin]; try discriminate; exact (IH H Hin).
Qed.

(** X6.  Once an open fails (the descriptor stored, the kernel's answer as
    an [int], is negative) nothing is ever closed: the descriptors opened
    before it (fewer than eight) stay open for the whole life of the
    registry, no further open is attempted, and the registry makes no
    other kernel call. *)
Theorem refused_open_closes_nothing sz K n tr0 tr :
  lifetime sz K n tr0 = (tt, tr0 ++ tr) ->
  (exists a ret, In (perf_event_open a ret) tr /\ int_of_long ret < 0) ->
  fds_closed tr = []
  /\ count is_failed_open tr = 1%nat
  /\ (length (fds_opened tr) < 8)%nat
  /\ count is_syscall tr = S (length (fds_opened tr)).
Proof.
  intros Hlife (a & ret & Hin & Hneg).
  destruct (lifetime_spec sz K n tr0)
    as [(evs' & tr1 & tr2 & Ho & O2 & C2 & N2 & E)
       |(done & done' & c & todo & fd' & tr1 & tr2 & Hcs & Ho & Hfd & S2 & E)];
    rewrite E in Hlife; injection Hlife as Htr; apply app_inv_head in Htr; subst tr.
  - exfalso. apply in_app_or in Hin. destruct Hin as [Hin|Hin].
    + pose proof (opened_rets _ _ _ _ _ Ho Hin). lia.
    + apply in_app_or in Hin. destruct Hin as [Hin|Hin].
      * exact (no_open_facts _ _ _ N2 Hin).
      * apply in_map_iff in Hin. destruct Hin as (ev & Hev & _). discriminate.
  - destruct (opened_fds _ _ _ Ho) as [O1 C1].
    destruct (opened_counts _ _ _ Ho) as (_ & _ & F1).
    destruct (opened_length _ _ _ Ho) as [Hl1 Hl2]. rewrite length_map in Hl1, Hl2.
    destruct (no_syscall_facts _ S2) as (C3 & O3 & F3).
    assert (S1 : count is_syscall tr1 = length done).
    { rewrite (opened_syscalls _ _ _ Ho), length_map. reflexivity. }
    assert (Hlen : (length done < 8)%nat).
    { apply (f_equal (@length _)) in Hcs. rewrite length_app in Hcs. cbn in Hcs. lia. }
    rewrite !fds_closed_app, !fds_opened_app, !count_app, !count_cons.
    cbn [fds_closed fds_opened is_failed_open is_syscall].
    replace (int_of_long fd' <? 0) with true by (symmetry; apply Z.ltb_lt; exact Hfd).
    replace (0 <=? int_of_long fd') with false
      by (symmetry; apply Z.leb_gt; exact Hfd).
    rewrite C1, C3, O1, O3, F1, F3, S1, S2, !app_nil_r, length_map, Hl1.
    repeat split; lia.
Qed.

Lemma refused_open_closes_nothing_witness :
  let K := sample_kernel (Some 2%nat) 24 in
  let tr := exec (lifetime 128 K 3) [] in
  (exists a ret, In (perf_event_open a ret) tr /\ int_of_long ret < 0)
  /\ fds_opened tr = [3; 4]
  /\ fds_closed tr = []
  /\ count is_syscall (exec (lifetime 128 (wide_kernel (2 ^ 31)) 3) []) = 1%nat.
Proof.
  intros K tr.
  assert (Hlife : lifetime 128 K 3 [] = (tt, [] ++ tr)) by (vm_compute; reflexivity).
  assert (Hfail : exists a ret, In (perf_event_open a ret) tr /\ int_of_long ret < 0).
  { exists (configure_attr 128 PERF_TYPE_RAW 0x43FFAE false), (-1).
    split; [|reflexivity]. vm_compute. right. right. left. reflexivity. }
  split; [exact Hfail|]. split; [vm_compute; reflexivity|].
  split; [|vm_compute; reflexivity].
  exact (proj1 (refused_open_closes_nothing 128 K 3 [] tr Hlife Hfail)).
Defined.

(* ================================================================= *)
(** * Further properties of the values *)

(** X7.  The division by a zero running-time difference is not guarded:
    [readCounter] then returns NaN when the enabled-time difference or the
    raw difference is zero as well, and plus infinity otherwise. *)
Theorem readCounter_zero_running e :
  runningDelta e = 0 ->
  readCounter e
  = if (enabledDelta e =? 0) || (rawDelta e =? 0) then Double.nan
    else Double.infinity.
Proof.
  intros Hr. rewrite readCounter_unfold, Hr.
  pose proof (u64_sub_range (time_enabled (data e)) (time_enabled (prev e))) as He.
  pose proof (u64_sub_range (value (data e)) (value (prev e))) as Hv.
  fold (enabledDelta e) in He. fold (rawDelta e) in Hv.
  destruct (Z.eqb_spec (enabledDelta e) 0) as [->|Hen].
  - cbn [orb]. change (Double.div (Double.of_Z 0) (Double.of_Z 0)) with Double.nan.
    destruct (Double.of_Z (rawDelta e)); reflexivity.
  - destruct (DoubleFacts.of_Z_normal (enabledDelta e) ltac:(lia)) as (m & x & E & _).
    rewrite E.
    change (Double.div (S754_finite false m x) (Double.of_Z 0)) with Double.infinity.
    cbn [orb].
    destruct (Z.eqb_spec (rawDelta e) 0) as [->|Hraw]; [reflexivity|].
    destruct (DoubleFacts.of_Z_normal (rawDelta e) ltac:(lia)) as (m' & x' & E' & _).
    rewrite E'. reflexivity.
Qed.

Lemma readCounter_zero_running_witness :
  let e := sample_event (0, 0, 5) (7, 9, 5) in
  runningDelta e = 0 /\ readCounter e = Double.infinity.
Proof.
  split; [reflexivity|].
  exact (readCounter_zero_running (sample_event (0, 0, 5) (7, 9, 5)) eq_refl).
Defined.

(** X15.  The raw difference is taken in [uint64_t]: when the final raw
    value is below the baseline, it wraps around, and without multiplexing
    [readCounter] returns the wrapped difference, [2^64] minus the drop,
    as a [double]. *)
Theorem readCounter_wraps e :
  0 <= value (data e) < value (prev e) -> value (prev e) < 2 ^ 64 ->
  runningDelta e <> 0 -> enabledDelta e = runningDelta e ->
  readCounter e = Double.of_Z (2 ^ 64 - (value (prev e) - value (data e))).
Proof.
  intros Hlt Hmax Hr He.
  rewrite (readCounter_no_multiplexing e Hr He). f_equal.
  unfold rawDelta, u64_sub. symmetry.
  apply (Z.mod_unique _ _ (-1)); lia.
Qed.

Lemma readCounter_wraps_witness :
  let e := sample_event (10, 0, 0) (4, 5, 5) in
  (0 <= value (data e) < value (prev e)) /\ value (prev e) < 2 ^ 64
  /\ runningDelta e <> 0 /\ enabledDelta e = runningDelta e
  /\ readCounter e = Double.of_Z (2 ^ 64 - 6).
Proof.
  intros e.
  assert (H1 : 0 <= value (data e) < value (prev e)) by (split; [discriminate | reflexivity]).
  assert (H2 : value (prev e) < 2 ^ 64) by reflexivity.
  assert (H3 : runningDelta e <> 0) by discriminate.
  assert (H4 : enabledDelta e = runningDelta e) by reflexivity.
  split; [exact H1|]. split; [exact H2|]. split; [exact H3|]. split; [exact H4|].
  exact (readCounter_wraps e H1 H2 H3 H4).
Defined.

(* ================================================================= *)
(** * Properties of the report *)

Lemma string_length_app (a b : string) :
  String.length (a ++ b)%string = (String.length a + String.length b)%nat.
Proof. induction a as [|c a IH]; cbn; [reflexivity | rewrite IH; reflexivity]. Qed.

Lemma spaces_length n : String.length (spaces n) = n.
Proof. induction n as [|n IH]; cbn; [reflexivity | rewrite IH; reflexivity]. Qed.

(** [setw] pads to the width and never truncates. *)
Lemma setw_length w s : String.length (setw w s) = Nat.max w (String.length s).
Proof. unfold setw. rewrite string_length_app, spaces_length. lia. Qed.

Lemma printCounter_lengths out name v c :
  String.length (fst (printCounter out name v c))
  = (String.length (fst out) + column_width name v c)%nat
  /\ String.length (snd (printCounter out name v c))
     = (String.length (snd out) + column_width name v c)%nat.
Proof.
  unfold printCounter, column_width. cbn [fst snd].
  rewrite !string_length_app, !setw_length. destruct c; cbn; lia.
Qed.



Section ReportFacts.

Variable fmt_double : double -> string.
Variable fmt_unsigned : Z -> string.





End ReportFacts.

(** X8.  One [printCounter] call makes the header and the data stream
    longer by the same number of characters: the longer of the name and
    the value, plus the separator. *)
Theorem printCounter_same_width out name counterValue addComma :
  let out' := printCounter out name counterValue addComma in
  String.length (fst out')
  = (String.length (fst out) + column_width name counterValue addComma)%nat
  /\ String.length (snd out')
     = (String.length (snd out) + column_width name counterValue addComma)%nat.
Proof. exact (printCounter_lengths out name counterValue addComma). Qed.





(** X11.  On a registry without counters [~PerfEventBlock()] makes no
    kernel call and still prints its lines, which hold the parameter
    columns, [time] and [time_us] and no counter or derived-metric
    column. *)
Theorem PerfEventBlock_dtor_empty_registry fmt_double fmt_unsigned K e b tr0 :
  events e = [] ->
  let t := k_now K tr0 in
  let e1 := set_stopTime e t in
  let lines :=
    printCounter_unsigned fmt_unsigned
      (printCounter_double fmt_double (printParams e ("", ""))
         "time" (getDuration e1) true)
      "time_us" (getDurationMicros e1) true in
  PerfEventBlock_dtor fmt_double fmt_unsigned K e b tr0
  = (set_printHeader e1 false,
     tr0 ++ [steady_clock_now t]
       ++ (if printHeader e then [cout (fst lines)] else [])
       ++ [cout (snd lines)]).
Proof.
  intros He t e1 lines.
  unfold PerfEventBlock_dtor, stopCounters, now.
  rewrite He. cbn [length stopCounters_loop]. unfold bind, ret.
  cbv beta iota zeta. fold t. fold e1.
  assert (Hl : block_lines fmt_double fmt_unsigned e1 b = lines).
  { unfold block_lines, printReport_streams.
    change (events e1) with (events e). rewrite He. reflexivity. }
  rewrite Hl. change (printHeader e1) with (printHeader e).
  destruct (printHeader e) eqn:Hh; unfold emit; cbv beta iota zeta.
  - rewrite <- !app_assoc. reflexivity.
  - rewrite <- !app_assoc. f_equal.
    unfold e1, set_printHeader, set_stopTime.
    cbn [events names startTime stopTime params printHeader].
    rewrite Hh. reflexivity.
Qed.

Lemma PerfEventBlock_dtor_empty_registry_witness :
  let K := sample_kernel None 24 in
  let f := fun _ : double => "0.00" in
  let g := fun _ : Z => "0" in
  events PerfEvent_new = []
  /\ exec (PerfEventBlock_dtor f g K PerfEvent_new {| scale := 1 |}) []
     = [steady_clock_now 0; cout "time, time_us, "; cout "0.00,       0, "].
Proof.
  intros K f g. split; [reflexivity|].
  unfold exec.
  rewrite (PerfEventBlock_dtor_empty_registry f g K PerfEvent_new {| scale := 1 |} []
             eq_refl).
  vm_compute. reflexivity.
Defined.

(* ================================================================= *)
(** * Properties of the parameters *)

Lemma string_compare_refl s : String.compare s s = Eq.
Proof.
  pose proof (String.compare_antisym s s) as H.
  destruct (String.compare s s); [reflexivity | discriminate H | discriminate H].
Qed.

Lemma string_compare_flip a b : String.compare a b = Gt -> String.compare b a = Lt.
Proof. intros H. rewrite String.compare_antisym, H. reflexivity. Qed.

Lemma map_assign_twice k v1 v2 m :
  map_assign k v2 (map_assign k v1 m) = map_assign k v2 m.
Proof.
  induction m as [|[k' v'] m IH]; cbn [map_assign].
  - rewrite string_compare_refl. reflexivity.
  - destruct (String.compare k k') eqn:Hc; cbn [map_assign].
    + rewrite string_compare_refl. reflexivity.
    + rewrite string_compare_refl. reflexivity.
    + rewrite Hc, IH. reflexivity.
Qed.

Lemma map_assign_increasing k v m :
  keys_increasing m -> keys_increasing (map_assign k v m).
Proof.
  induction 1 as [|k1 v1|k1 v1 k2 v2 m Hlt Hinc IH]; cbn [map_assign].
  - constructor.
  - destruct (String.compare k k1) eqn:Hc.
    + constructor.
    + constructor; [exact Hc | constructor].
    + constructor; [apply string_compare_flip; exact Hc | constructor].
  - destruct (String.compare k k1) eqn:Hc.
    + apply String.compare_eq_iff in Hc. subst k1.
      constructor; assumption.
    + constructor; [exact Hc|]. constructor; assumption.
    + cbn [map_assign] in IH. destruct (String.compare k k2) eqn:Hc2.
      * constructor; [|exact IH]. apply string_compare_flip. exact Hc.
      * constructor; [|exact IH]. apply string_compare_flip. exact Hc.
      * constructor; [exact Hlt | exact IH].
Qed.

Lemma string_compare_trans a b c :
  String.compare a b = Lt -> String.compare b c = Lt -> String.compare a c = Lt.
Proof.
  intros H1 H2. apply String_as_OT.cmp_lt.
  apply String_as_OT.cmp_lt in H1. apply String_as_OT.cmp_lt in H2.
  exact (String_as_OT.lt_trans _ _ _ H1 H2).
Qed.

Lemma string_compare_lt_neq a b : String.compare a b = Lt -> a <> b.
Proof. intros H ->. rewrite string_compare_refl in H. discriminate. Qed.

Lemma keys_increasing_tail p m : keys_increasing (p :: m) -> keys_increasing m.
Proof. inversion 1; subst; [constructor | assumption]. Qed.

Lemma keys_increasing_above : forall m k v,
  keys_increasing ((k, v) :: m) ->
  forall k' x, In (k', x) m -> String.compare k k' = Lt.
Proof.
  induction m as [|[k2 v2] m IH]; intros k v Hinc k' x Hin; [destruct Hin|].
  inversion Hinc as [| |? ? ? ? ? Hlt Hinc']; subst.
  destruct Hin as [Heq|Hin].
  - injection Heq as <- <-. exact Hlt.
  - apply (string_compare_trans k k2 k'); [exact Hlt|].
    exact (IH k2 v2 Hinc' k' x Hin).
Qed.

Lemma keys_increasing_NoDup m : keys_increasing m -> List.NoDup (map fst m).
Proof.
  induction m as [|[k v] m IH]; intros Hinc; cbn [map fst]; constructor.
  - intros Hin. apply in_map_iff in Hin. destruct Hin as [[k' x] [Hk Hin]].
    cbn [fst] in Hk. subst k'.
    exact (string_compare_lt_neq k k (keys_increasing_above m k v Hinc k x Hin) eq_refl).
  - apply IH. exact (keys_increasing_tail _ _ Hinc).
Qed.

Lemma binding_In m : keys_increasing m ->
  forall k v, In (k, v) m <-> binding m k = Some v.
Proof.
  induction m as [|[k1 v1] m IH]; intros Hinc k v; cbn [binding].
  - split; [intros [] | discriminate].
  - specialize (IH (keys_increasing_tail _ _ Hinc) k v).
    destruct (String.eqb k k1) eqn:He.
    + apply String.eqb_eq in He. subst k1. split.
      * intros [Heq|Hin]; [injection Heq as ->; reflexivity|].
        exfalso.
        exact (string_compare_lt_neq k k (keys_increasing_above m k v1 Hinc k v Hin) eq_refl).
      * intros Heq. injection Heq as ->. left. reflexivity.
    + apply String.eqb_neq in He. split.
      * intros [Heq|Hin]; [injection Heq as -> ->; congruence | apply IH; exact Hin].
      * intros Hb. right. apply IH. exact Hb.
Qed.

Lemma binding_map_assign k v m k' :
  binding (map_assign k v m) k' = if String.eqb k' k then Some v else binding m k'.
Proof.
  induction m as [|[k1 v1] m IH]; cbn [map_assign binding]; [reflexivity|].
  destruct (String.compare k k1) eqn:Hc; cbn [binding].
  - apply String.compare_eq_iff in Hc. subst k1.
    destruct (String.eqb k' k); reflexivity.
  - reflexivity.
  - rewrite IH. destruct (String.eqb k' k1) eqn:E1; [|reflexivity].
    destruct (String.eqb k' k) eqn:E2; [|reflexivity].
    apply String.eqb_eq in E1, E2. subst k1 k.
    rewrite string_compare_refl in Hc. discriminate.
Qed.

Lemma map_assign_In_same k v m : In (k, v) (map_assign k v m).
Proof.
  induction m as [|[k1 v1] m IH]; cbn [map_assign]; [left; reflexivity|].
  destruct (String.compare k k1); [left; reflexivity | left; reflexivity | right; exact IH].
Qed.

Lemma map_assign_In_other k v m k' x :
  k' <> k -> In (k', x) (map_assign k v m) <-> In (k', x) m.
Proof.
  intros Hne. induction m as [|[k1 v1] m IH]; cbn [map_assign].
  - split; [intros [Heq|[]]; congruence | intros []].
  - destruct (String.compare k k1) eqn:Hc.
    + apply String.compare_eq_iff in Hc. subst k1. cbn [In].
      split; (intros [Heq|Hin]; [congruence | right; exact Hin]).
    + cbn [In]. split; [intros [Heq|Hin]; [congruence | exact Hin] | intros Hin; right; exact Hin].
    + cbn [In]. rewrite IH. reflexivity.
Qed.

Lemma binding_setParams l : forall r k,
  binding (params (fold_left (fun r p => setParam r (fst p) (snd p)) l r)) k
  = match last_setting l k with
    | Some v => Some v
    | None => binding (params r) k
    end.
Proof.
  induction l as [|[k1 v1] l IH]; intros r k; cbn [fold_left last_setting fst snd].
  - reflexivity.
  - rewrite IH. destruct (last_setting l k); [reflexivity|].
    unfold setParam. cbn [params set_params].
    rewrite binding_map_assign. destruct (String.eqb k k1); reflexivity.
Qed.

Lemma setParams_increasing l : forall r,
  keys_increasing (params r) ->
  keys_increasing (params (fold_left (fun r p => setParam r (fst p) (snd p)) l r)).
Proof.
  induction l as [|p l IH]; intros r Hr; cbn [fold_left]; [exact Hr|].
  apply IH. unfold setParam. cbn [params set_params].
  apply map_assign_increasing. exact Hr.
Qed.

Lemma printParams_loop_fold ps : forall out,
  printParams_loop ps out
  = fold_left (fun o p => printCounter o (fst p) (snd p) true) ps out.
Proof. induction ps as [|p ps IH]; intros out; cbn [printParams_loop fold_left]; auto. Qed.

(** X12.  [setParam] binds the name to the value and keeps the binding of
    every other name and all other members; setting a parameter again
    replaces its value, so the registry is the same as if only the last
    value had been set.  On a map iterated by increasing name the name is
    bound once, to the value set last. *)
Theorem setParam_overwrites r name v1 v2 :
  setParam (setParam r name v1) name v2 = setParam r name v2
  /\ In (name, v2) (params (setParam r name v2))
  /\ (forall k x, k <> name ->
        (In (k, x) (params (setParam r name v2)) <-> In (k, x) (params r)))
  /\ events (setParam r name v2) = events r
  /\ names (setParam r name v2) = names r
  /\ startTime (setParam r name v2) = startTime r
  /\ stopTime (setParam r name v2) = stopTime r
  /\ printHeader (setParam r name v2) = printHeader r
  /\ (keys_increasing (params r) ->
      keys_increasing (params (setParam r name v2))
      /\ List.NoDup (map fst (params (setParam r name v2)))
      /\ forall x, In (name, x) (params (setParam r name v2)) -> x = v2).
Proof.
  split.
  { unfold setParam, set_params.
    cbn [params events names startTime stopTime printHeader].
    rewrite map_assign_twice. reflexivity. }
  unfold setParam. cbn [params set_params events names startTime stopTime printHeader].
  split; [apply map_assign_In_same|].
  split; [intros k x Hne; apply map_assign_In_other; exact Hne|].
  do 5 (split; [reflexivity|]).
  intros Hinc.
  pose proof (map_assign_increasing name v2 _ Hinc) as Hinc'.
  split; [exact Hinc'|]. split; [apply keys_increasing_NoDup; exact Hinc'|].
  intros x Hin. apply (binding_In _ Hinc') in Hin.
  rewrite binding_map_assign, String.eqb_refl in Hin. congruence.
Qed.

Lemma setParam_overwrites_witness :
  let r := setParam (setParam PerfEvent_new "threads" "4") "engine" "a" in
  keys_increasing (params r)
  /\ params r = [("engine", "a"); ("threads", "4")]
  /\ params (setParam r "engine" "b") = [("engine", "b"); ("threads", "4")]
  /\ (forall x, In ("engine", x) (params (setParam r "engine" "b")) -> x = "b").
Proof.
  intros r.
  assert (Hinc : keys_increasing (params r))
    by (constructor; [reflexivity | constructor]).
  split; [exact Hinc|]. split; [reflexivity|]. split; [reflexivity|].
  pose proof (setParam_overwrites r "engine" "a" "b") as H.
  destruct H as (_ & _ & _ & _ & _ & _ & _ & _ & H).
  exact (proj2 (proj2 (H Hinc))).
Defined.

(** X13.  Whatever parameters are set, in whatever order, starting from a
    new registry: the registry holds exactly one binding for each name that
    was set, with the value set last, and holds them by strictly increasing
    name; [printParams] prints one column for each, in that order. *)
Theorem params_in_name_order (l : list (string * string)) :
  let r := fold_left (fun r p => setParam r (fst p) (snd p)) l PerfEvent_new in
  keys_increasing (params r)
  /\ List.NoDup (map fst (params r))
  /\ (forall k v, In (k, v) (params r) <-> last_setting l k = Some v)
  /\ (forall out,
        printParams r out
        = fold_left (fun o p => printCounter o (fst p) (snd p) true) (params r) out).
Proof.
  intros r.
  assert (Hinc : keys_increasing (params r))
    by (apply setParams_increasing; constructor).
  split; [exact Hinc|]. split; [apply keys_increasing_NoDup; exact Hinc|].
  split.
  - intros k v. rewrite (binding_In _ Hinc). unfold r.
    rewrite binding_setParams. cbn [params PerfEvent_new binding].
    destruct (last_setting l k); [reflexivity|]. split; discriminate.
  - intros out. unfold printParams. apply printParams_loop_fold.
Qed.

Lemma params_in_name_order_witness :
  let l := [("threads", "4"); ("engine", "a"); ("threads", "8")] in
  let r := fold_left (fun r p => setParam r (fst p) (snd p)) l PerfEvent_new in
  params r = [("engine", "a"); ("threads", "8")]
  /\ printParams r ("", "") = ("engine, threads, ", "     a,       8, ")
  /\ keys_increasing (params r)
  /\ (forall k v, In (k, v) (params r) <-> last_setting l k = Some v).
Proof.
  intros l r. split; [reflexivity|]. split; [vm_compute; reflexivity|].
  pose proof (params_in_name_order l) as H. cbv zeta in H.
  split; [exact (proj1 H) | exact (proj1 (proj2 (proj2 H)))].
Defined.

(* ================================================================= *)
(** * Registration after construction *)

(** X14.  A counter registered after construction is never opened: its
    descriptor is the zero the event was initialised with, and the
    destructor closes descriptor 0 for it, after the descriptors of the
    counters registered before. *)
Theorem late_registration_closes_descriptor_zero sz r name type eventID ex tr0 :
  let r' := registerCounter sz r name type eventID ex in
  map fd (events r') = map fd (events r) ++ [0]
  /\ exec (PerfEvent_dtor r') tr0 = exec (PerfEvent_dtor r) tr0 ++ [close 0].
Proof.
  cbv zeta. rewrite registerCounter_eq. unfold exec, PerfEvent_dtor.
  rewrite !close_all_spec. cbn [snd events set_events set_names].
  rewrite !map_app, app_assoc. split; reflexivity.
Qed.
